(** * vpa-operator: the reconciliation cycle, embedded and verified

    The operator lists the VerticalPodAutoscalers, Deployments, StatefulSets
    and DaemonSets of a cluster, creates a recommendation-only VPA for every
    workload that has none, and deletes the VPAs that no workload accounts
    for.  The Go program does all of this in two functions, [createVPAs] and
    [createVPA], called forever from [main].

    The embedding is shallow: Go values become records, the two client sets
    become records of state-passing functions over an abstract cluster
    state, and the statements of the program run in a small monad that
    threads the cluster state, collects the calls and log lines the program
    emits, and propagates a runtime panic. *)

From Stdlib Require Import String List Bool Arith Lia.
Import ListNotations.
Local Open Scope string_scope.
Local Open Scope list_scope.

Set Implicit Arguments.

(** ** Go values *)

(** A Go [error] is represented by its message. *)
Definition error := string.

(** [fmt.Errorf(msg ++ "%w", err)]: the wrapped error prints as the prefix
    followed by the message of the cause. *)
Definition Errorf (msg : string) (err : error) : error := (msg ++ err)%string.

(** Outcome of evaluating a Go expression: a value, or a runtime panic
    (here always a nil pointer dereference). *)
Inductive res (A : Type) : Type :=
| Val (a : A)
| Panic.
Arguments Panic {A}.

(** [*p] for a pointer [p]: panics on nil. *)
Definition deref {A : Type} (p : option A) : res A :=
  match p with
  | Some a => Val a
  | None => Panic
  end.

(** ** The Kubernetes objects the program touches *)

Module metav1.
Record ObjectMeta : Type := { Name : string; Namespace : string }.
End metav1.

Module autoscalingv1.
Record CrossVersionObjectReference : Type :=
  { Kind : string; Name : string; APIVersion : string }.
End autoscalingv1.

Module appsv1.
Record Deployment : Type := { Deployment_ObjectMeta : metav1.ObjectMeta }.
Record StatefulSet : Type := { StatefulSet_ObjectMeta : metav1.ObjectMeta }.
Record DaemonSet : Type := { DaemonSet_ObjectMeta : metav1.ObjectMeta }.
End appsv1.

Module autoscalerv1.
Definition UpdateMode := string.

(** Modelled from the spec: the library constant [UpdateModeOff] of the
    VPA API package, whose value the spec gives as the update mode "Off". *)
Definition UpdateModeOff : UpdateMode := "Off".

Record PodUpdatePolicy : Type :=
  { PodUpdatePolicy_UpdateMode : option UpdateMode }.

Record VerticalPodAutoscalerSpec : Type :=
  { TargetRef : option autoscalingv1.CrossVersionObjectReference;
    UpdatePolicy : option PodUpdatePolicy }.

Record VerticalPodAutoscaler : Type :=
  { ObjectMeta : metav1.ObjectMeta;
    Spec : VerticalPodAutoscalerSpec }.

(** The zero value [&VerticalPodAutoscaler{}] a failed call hands back. *)
Definition zero : VerticalPodAutoscaler :=
  {| ObjectMeta := {| metav1.Name := ""; metav1.Namespace := "" |};
     Spec := {| TargetRef := None; UpdatePolicy := None |} |}.
End autoscalerv1.

Import autoscalerv1 appsv1.

Abbreviation VPA := VerticalPodAutoscaler.

(** Go promotes the fields of the embedded [ObjectMeta]: [v.Name]. *)
Definition vName (v : VPA) : string := metav1.Name (ObjectMeta v).
Definition vNamespace (v : VPA) : string := metav1.Namespace (ObjectMeta v).

(** [type vpaTarget interface { GetName() string; GetNamespace() string }] *)
Class vpaTarget (T : Type) : Type :=
  { GetName : T -> string;
    GetNamespace : T -> string }.

#[global] Instance Deployment_vpaTarget : vpaTarget Deployment :=
  {| GetName := fun d => metav1.Name (Deployment_ObjectMeta d);
     GetNamespace := fun d => metav1.Namespace (Deployment_ObjectMeta d) |}.

#[global] Instance StatefulSet_vpaTarget : vpaTarget StatefulSet :=
  {| GetName := fun s => metav1.Name (StatefulSet_ObjectMeta s);
     GetNamespace := fun s => metav1.Namespace (StatefulSet_ObjectMeta s) |}.

#[global] Instance DaemonSet_vpaTarget : vpaTarget DaemonSet :=
  {| GetName := fun d => metav1.Name (DaemonSet_ObjectMeta d);
     GetNamespace := fun d => metav1.Namespace (DaemonSet_ObjectMeta d) |}.

(** ** What a run emits *)

Inductive Level : Type := Info | Warn | Error.

Inductive event : Type :=
| Slog (lvl : Level) (msg : string) (attrs : list (string * string))
| Create (namespace : string) (o : VPA)
| Delete (namespace : string) (name : string)
| Sleep (minutes : nat).

(** ** The client sets

    Every call takes the cluster state and returns its answer with the next
    state.  [Create] answers with an object and an optional error, as the
    generated client does (the object is the zero value on failure, never
    nil). *)

Record versioned_Clientset (St : Type) : Type :=
  { VerticalPodAutoscalers_List :
      string -> St -> (list VPA + error) * St;
    VerticalPodAutoscalers_Create :
      string -> VPA -> St -> (VPA * option error) * St;
    VerticalPodAutoscalers_Delete :
      string -> string -> St -> option error * St }.

Record kubernetes_Clientset (St : Type) : Type :=
  { Deployments_List : string -> St -> (list Deployment + error) * St;
    StatefulSets_List : string -> St -> (list StatefulSet + error) * St;
    DaemonSets_List : string -> St -> (list DaemonSet + error) * St }.

(** ** The monad of Go statements *)

Record Out (St A : Type) : Type :=
  mkOut { result : res A; final : St; emitted : list event }.

Definition Go (St A : Type) : Type := St -> Out St A.

Definition ret {St A : Type} (a : A) : Go St A :=
  fun s => mkOut (Val a) s [].

Definition bind {St A B : Type} (m : Go St A) (f : A -> Go St B) : Go St B :=
  fun s =>
    let o := m s in
    match result o with
    | Val a =>
        let o' := f a (final o) in
        mkOut (result o') (final o') (emitted o ++ emitted o')
    | Panic => mkOut Panic (final o) (emitted o)
    end.

Declare Scope go_scope.
Delimit Scope go_scope with go.
Notation "x <- m ;; k" := (bind m (fun x => k))
  (at level 61, m at next level, right associativity) : go_scope.
Notation "m ;; k" := (bind m (fun _ => k))
  (at level 61, right associativity) : go_scope.
Local Open Scope go_scope.

(** An expression that may panic, used as a statement. *)
Definition eval {St A : Type} (r : res A) : Go St A :=
  fun s => mkOut r s [].

(** A call of a client method, with the events it leaves in the trace. *)
Definition call {St A : Type} (f : St -> A * St) (evs : list event) : Go St A :=
  fun s => mkOut (Val (fst (f s))) (snd (f s)) evs.

Definition slog {St : Type} (lvl : Level) (msg : string)
    (attrs : list (string * string)) : Go St unit :=
  fun s => mkOut (Val tt) s [Slog lvl msg attrs].

Definition time_Sleep {St : Type} (minutes : nat) : Go St unit :=
  fun s => mkOut (Val tt) s [Sleep minutes].

(** [slices.ContainsFunc(s, f)]: true at the first element [f] accepts; the
    elements after it are not visited, and a panic inside [f] escapes. *)
Fixpoint slices_ContainsFunc {A : Type} (s : list A) (f : A -> res bool)
    : res bool :=
  match s with
  | [] => Val false
  | x :: t =>
      match f x with
      | Val true => Val true
      | Val false => slices_ContainsFunc t f
      | Panic => Panic
      end
  end.

(** [strings.HasPrefix(s, prefix)] *)
Definition strings_HasPrefix (s prefix : string) : bool := String.prefix prefix s.

(** [for _, x := range items { body }] *)
Fixpoint range {St A : Type} (items : list A) (body : A -> Go St unit)
    : Go St unit :=
  match items with
  | [] => ret tt
  | x :: t => body x ;; range t body
  end.

(** A [range] loop whose body may [return err]: the body answers [Some err]
    to leave the function, [None] to go on ([continue] or falling off the
    end of the body). *)
Fixpoint rangeReturning {St A : Type} (items : list A)
    (body : A -> Go St (option error)) : Go St (option error) :=
  match items with
  | [] => ret None
  | x :: t =>
      r <- body x ;;
      match r with
      | Some err => ret (Some err)
      | None => rangeReturning t body
      end
  end.

(** ** The program *)

Section Program.
Context {St : Type}.

(** [func createVPA[T vpaTarget](target T, apiVersion, kind string, vpas, vpaClient)] *)
Definition createVPA {T : Type} `{vpaTarget T} (target : T)
    (apiVersion kind : string) (vpas : list VPA)
    (vpaClient : versioned_Clientset St) : Go St unit :=
  found <- eval (slices_ContainsFunc vpas (fun v =>
             Val ((GetName target =? vName v) &&
                  (GetNamespace target =? vNamespace v)))) ;;
  if (found : bool) then ret tt
  else
    slog Info "building VPA"
      [("name", GetName target); ("namespace", GetNamespace target)] ;;
    let off := UpdateModeOff in
    let o :=
      {| ObjectMeta :=
           {| metav1.Name := GetName target;
              metav1.Namespace := GetNamespace target |};
         Spec :=
           {| TargetRef :=
                Some {| autoscalingv1.APIVersion := apiVersion;
                        autoscalingv1.Kind := kind;
                        autoscalingv1.Name := GetName target |};
              UpdatePolicy :=
                Some {| PodUpdatePolicy_UpdateMode := Some off |} |} |} in
    r <- call (VerticalPodAutoscalers_Create vpaClient (GetNamespace target) o)
              [Create (GetNamespace target) o] ;;
    let '(res, err) := r in
    match err with
    | Some e =>
        slog Warn "failed to create vpa"
          [("error", e); ("name", GetName target);
           ("namespace", GetNamespace target)]
    | None => ret tt
    end ;;
    slog Info "created" [("vpa", vName res); ("namespace", vNamespace res)].

(** [func createVPAs(vpaClient, k8sClient) error] *)
Definition createVPAs (vpaClient : versioned_Clientset St)
    (k8sClient : kubernetes_Clientset St) : Go St (option error) :=
  slog Info "scanning for changes" [] ;;
  r <- call (VerticalPodAutoscalers_List vpaClient "") [] ;;
  match r with
  | inr err =>
      ret (Some (Errorf "failed to fetch VerticalPodAutoscalers: " err))
  | inl vpas =>
  r <- call (Deployments_List k8sClient "") [] ;;
  match r with
  | inr err => ret (Some (Errorf "failed to fetch Deployments: " err))
  | inl deployments =>
  range deployments (fun d =>
    createVPA d "apps/v1" "Deployment" vpas vpaClient) ;;
  r <- call (StatefulSets_List k8sClient "") [] ;;
  match r with
  | inr err => ret (Some (Errorf "failed to fetch StatefulSets: " err))
  | inl statefulSets =>
  range statefulSets (fun s =>
    createVPA s "apps/v1" "StatefulSet" vpas vpaClient) ;;
  r <- call (DaemonSets_List k8sClient "") [] ;;
  match r with
  | inr err => ret (Some (Errorf "failed to fetch DaemonSets: " err))
  | inl daemonSets =>
  range daemonSets (fun d =>
    createVPA d "apps/v1" "DaemonSet" vpas vpaClient) ;;
  r <- rangeReturning vpas (fun v =>
    c <- eval (slices_ContainsFunc deployments (fun d =>
           if (metav1.Name (Deployment_ObjectMeta d) =? vName v) &&
              (metav1.Namespace (Deployment_ObjectMeta d) =? vNamespace v)
           then match deref (TargetRef (Spec v)) with
                | Val t => Val (autoscalingv1.Kind t =? "Deployment")
                | Panic => Panic
                end
           else Val false)) ;;
    if (c : bool) then ret None else
    c <- eval (slices_ContainsFunc statefulSets (fun s =>
           if (metav1.Name (StatefulSet_ObjectMeta s) =? vName v) &&
              (metav1.Namespace (StatefulSet_ObjectMeta s) =? vNamespace v)
           then match deref (TargetRef (Spec v)) with
                | Val t => Val (autoscalingv1.Kind t =? "StatefulSet")
                | Panic => Panic
                end
           else Val false)) ;;
    if (c : bool) then ret None else
    c <- eval (slices_ContainsFunc daemonSets (fun d =>
           if (metav1.Name (DaemonSet_ObjectMeta d) =? vName v) &&
              (metav1.Namespace (DaemonSet_ObjectMeta d) =? vNamespace v)
           then match deref (TargetRef (Spec v)) with
                | Val t => Val (autoscalingv1.Kind t =? "DaemonSet")
                | Panic => Panic
                end
           else Val false)) ;;
    if (c : bool) then ret None else
    if strings_HasPrefix (vName v) "goldilocks" then ret None else
    err <- call (VerticalPodAutoscalers_Delete vpaClient (vNamespace v) (vName v))
                [Delete (vNamespace v) (vName v)] ;;
    match err with
    | Some e => ret (Some e)
    | None =>
        t <- eval (deref (TargetRef (Spec v))) ;;
        slog Info "deleted"
          [("vpa", vName v); ("namespace", vNamespace v);
           ("kind", autoscalingv1.Kind t)] ;;
        ret None
    end) ;;
  match r with
  | Some err => ret (Some err)
  | None =>
      slog Info "completed scanning for changes" [] ;;
      ret None
  end
  end end end end.

(** One turn of the [for] loop of [main]. *)
Definition cycle (vpaClient : versioned_Clientset St)
    (k8sClient : kubernetes_Clientset St) : Go St unit :=
  err <- createVPAs vpaClient k8sClient ;;
  match err with
  | Some e => slog Error "failed creating vpas" [("error", e)]
  | None => ret tt
  end ;;
  time_Sleep 5.

(** The first [n] turns of the endless loop of [main]. *)
Fixpoint mainLoop (n : nat) (vpaClient : versioned_Clientset St)
    (k8sClient : kubernetes_Clientset St) : Go St unit :=
  match n with
  | O => ret tt
  | S k => cycle vpaClient k8sClient ;; mainLoop k vpaClient k8sClient
  end.
End Program.

(** ** Reading a trace *)

(** The [Create] calls of a trace, in order. *)
Fixpoint createCalls (tr : list event) : list (string * VPA) :=
  match tr with
  | [] => []
  | Create ns o :: t => (ns, o) :: createCalls t
  | _ :: t => createCalls t
  end.

(** The [Delete] calls of a trace, in order, as (namespace, name). *)
Fixpoint deleteCalls (tr : list event) : list (string * string) :=
  match tr with
  | [] => []
  | Delete ns n :: t => (ns, n) :: deleteCalls t
  | _ :: t => deleteCalls t
  end.

Definition isAction (e : event) : bool :=
  match e with
  | Create _ _ | Delete _ _ => true
  | _ => false
  end.

(** The calls that change the cluster, in the order they were made. *)
Definition actions (tr : list event) : list event := filter isAction tr.

(** ** The plan, as the specification words it

    The program has no planning function of its own: it decides and acts in
    one pass.  The definitions of this section follow the specification
    (sections 3 and 4.1) instead, and the theorems below compare them with
    the calls [createVPAs] makes. *)

Record WorkloadRef : Type :=
  { kind : string; name : string; namespace : string }.

Definition refOf {T : Type} `{vpaTarget T} (k : string) (t : T) : WorkloadRef :=
  {| kind := k; name := GetName t; namespace := GetNamespace t |}.

(** The workload snapshot: Deployments, then StatefulSets, then DaemonSets. *)
Definition workloads (D : list Deployment) (S : list StatefulSet)
    (Dm : list DaemonSet) : list WorkloadRef :=
  map (refOf "Deployment") D ++ map (refOf "StatefulSet") S
    ++ map (refOf "DaemonSet") Dm.

(** The kind recorded in the target reference; empty when there is none. *)
Definition targetKind (v : VPA) : string :=
  match TargetRef (Spec v) with
  | Some t => autoscalingv1.Kind t
  | None => ""
  end.

Definition hasTargetRef (v : VPA) : Prop := TargetRef (Spec v) <> None.

Definition ManagedVPASpec (w : WorkloadRef) : VPA :=
  {| ObjectMeta := {| metav1.Name := name w; metav1.Namespace := namespace w |};
     Spec :=
       {| TargetRef :=
            Some {| autoscalingv1.APIVersion := "apps/v1";
                    autoscalingv1.Kind := kind w;
                    autoscalingv1.Name := name w |};
          UpdatePolicy := Some {| PodUpdatePolicy_UpdateMode := Some "Off" |} |} |}.

(** Create side: name and namespace. *)
Definition hasVPA (V : list VPA) (w : WorkloadRef) : bool :=
  existsb (fun v => (vName v =? name w) && (vNamespace v =? namespace w)) V.

(** Delete side: name, namespace and kind. *)
Definition hasWorkload (W : list WorkloadRef) (v : VPA) : bool :=
  existsb (fun w => (name w =? vName v) && (namespace w =? vNamespace v)
                    && (kind w =? targetKind v)) W.

Definition exempt (v : VPA) : bool := String.prefix "goldilocks" (vName v).

Record ReconciliationPlan : Type :=
  { toCreate : list WorkloadRef; toDelete : list VPA }.

Definition Plan (W : list WorkloadRef) (V : list VPA) : ReconciliationPlan :=
  {| toCreate := filter (fun w => negb (hasVPA V w)) W;
     toDelete := filter (fun v => negb (hasWorkload W v) && negb (exempt v)) V |}.

Definition createAction (w : WorkloadRef) : event :=
  Create (namespace w) (ManagedVPASpec w).

Definition deleteAction (v : VPA) : event :=
  Delete (vNamespace v) (vName v).

(** A VPA with the name of its target reference replaced, when it has one. *)
Definition retarget (n : string) (v : VPA) : VPA :=
  {| ObjectMeta := ObjectMeta v;
     Spec :=
       {| TargetRef :=
            match TargetRef (Spec v) with
            | Some t =>
                Some {| autoscalingv1.APIVersion := autoscalingv1.APIVersion t;
                        autoscalingv1.Kind := autoscalingv1.Kind t;
                        autoscalingv1.Name := n |}
            | None => None
            end;
          UpdatePolicy := UpdatePolicy (Spec v) |} |}.

(** ** Two clusters to run the program against *)

(** A cluster that answers every listing with a fixed snapshot, keeps no
    state, and fails exactly the calls a fault table names. *)
Module fake.
Record Faults : Type :=
  { createFault : string -> VPA -> option error;
    deleteFault : string -> string -> option error }.

Definition noFaults : Faults :=
  {| createFault := fun _ _ => None; deleteFault := fun _ _ => None |}.

Definition vpaClient (V : list VPA) (F : Faults) : versioned_Clientset unit :=
  {| VerticalPodAutoscalers_List := fun _ s => (inl V, s);
     VerticalPodAutoscalers_Create := fun ns o s =>
       match createFault F ns o with
       | Some e => ((autoscalerv1.zero, Some e), s)
       | None => ((o, None), s)
       end;
     VerticalPodAutoscalers_Delete := fun ns n s => (deleteFault F ns n, s) |}.

Definition k8sClient (D : list Deployment) (S : list StatefulSet)
    (Dm : list DaemonSet) : kubernetes_Clientset unit :=
  {| Deployments_List := fun _ s => (inl D, s);
     StatefulSets_List := fun _ s => (inl S, s);
     DaemonSets_List := fun _ s => (inl Dm, s) |}.
End fake.

(** A cluster with the rules of the Kubernetes API for VPA objects.  The
    state is the list of VPA objects; an object is identified by its
    namespace and name, so creating one that exists fails and changes
    nothing, deleting one that does not exist fails, and nothing else
    changes the state (no concurrent mutation).  The workloads are fixed. *)
Module kube.
Definition sameKey (ns n : string) (v : VPA) : bool :=
  (vNamespace v =? ns) && (vName v =? n).

Definition inNamespace (ns : string) (v : VPA) : bool :=
  (ns =? "") || (vNamespace v =? ns).

Definition vpaClient : versioned_Clientset (list VPA) :=
  {| VerticalPodAutoscalers_List := fun ns s => (inl (filter (inNamespace ns) s), s);
     VerticalPodAutoscalers_Create := fun ns o s =>
       if negb (vNamespace o =? ns) then
         ((autoscalerv1.zero, Some "namespace does not match the request"), s)
       else if existsb (sameKey ns (vName o)) s then
         ((autoscalerv1.zero, Some "already exists"), s)
       else ((o, None), s ++ [o]);
     VerticalPodAutoscalers_Delete := fun ns n s =>
       if existsb (sameKey ns n) s then
         (None, filter (fun v => negb (sameKey ns n v)) s)
       else (Some "not found", s) |}.

Definition k8sClient (D : list Deployment) (S : list StatefulSet)
    (Dm : list DaemonSet) : kubernetes_Clientset (list VPA) :=
  {| Deployments_List := fun _ s => (inl D, s);
     StatefulSets_List := fun _ s => (inl S, s);
     DaemonSets_List := fun _ s => (inl Dm, s) |}.

(** One reconciliation pass over the cluster. *)
Definition pass (D : list Deployment) (S : list StatefulSet)
    (Dm : list DaemonSet) (V : list VPA) : Out (list VPA) (option error) :=
  createVPAs vpaClient (k8sClient D S Dm) V.

(** The cluster after the create call for [w], decided on the snapshot
    [V]: nothing changes when the snapshot has a VPA of that name, or
    when the cluster has one by now. *)
Definition afterCreate (V : list VPA) (w : WorkloadRef) (s : list VPA)
    : list VPA :=
  if hasVPA V w || existsb (sameKey (namespace w) (name w)) s then s
  else s ++ [ManagedVPASpec w].

(** The cluster after the delete step for [v]. *)
Definition afterDelete (W : list WorkloadRef) (v : VPA) (s : list VPA)
    : list VPA :=
  if negb (hasWorkload W v) && negb (exempt v)
  then filter (fun x => negb (sameKey (vNamespace v) (vName v) x)) s
  else s.

Definition afterCreates (V : list VPA) (W : list WorkloadRef)
    (s : list VPA) : list VPA :=
  fold_left (fun s w => afterCreate V w s) W s.

Definition afterDeletes (W : list WorkloadRef) (V : list VPA)
    (s : list VPA) : list VPA :=
  fold_left (fun s v => afterDelete W v s) V s.

(** The identity of an object. *)
Definition key (v : VPA) : string * string := (vNamespace v, vName v).
End kube.

(** ** Sample objects *)

Definition mkMeta (n ns : string) : metav1.ObjectMeta :=
  {| metav1.Name := n; metav1.Namespace := ns |}.

Definition mkDeployment (n ns : string) : Deployment :=
  {| Deployment_ObjectMeta := mkMeta n ns |}.

Definition mkStatefulSet (n ns : string) : StatefulSet :=
  {| StatefulSet_ObjectMeta := mkMeta n ns |}.

Definition mkDaemonSet (n ns : string) : DaemonSet :=
  {| DaemonSet_ObjectMeta := mkMeta n ns |}.

(** A VPA named [n] in [ns] whose target reference has kind [k] and name [tn]. *)
Definition mkVPA (n ns k tn : string) : VPA :=
  {| ObjectMeta := mkMeta n ns;
     Spec :=
       {| TargetRef :=
            Some {| autoscalingv1.APIVersion := "apps/v1";
                    autoscalingv1.Kind := k;
                    autoscalingv1.Name := tn |};
          UpdatePolicy := None |} |}.

(** A VPA without target reference. *)
Definition mkBareVPA (n ns : string) : VPA :=
  {| ObjectMeta := mkMeta n ns;
     Spec := {| TargetRef := None; UpdatePolicy := None |} |}.

(** ** Predicates on traces *)

(** [emitsOnly P m]: whatever the state and whatever the clients answer,
    every event [m] leaves in the trace satisfies [P]. *)
Definition emitsOnly {St A : Type} (P : event -> Prop) (m : Go St A) : Prop :=
  forall s, Forall P (emitted (m s)).

(** No [Delete] call names an object whose name begins with "goldilocks". *)
Definition sparesExempt (e : event) : Prop :=
  match e with
  | Delete _ n => String.prefix "goldilocks" n = false
  | _ => True
  end.

(** [neverPanics m]: whatever the state and whatever the clients answer,
    [m] ends without a runtime panic. *)
Definition neverPanics {St A : Type} (m : Go St A) : Prop :=
  forall s, result (m s) <> Panic.

Definition notCreate (e : event) : Prop :=
  match e with
  | Create _ _ => False
  | _ => True
  end.

(** A client that reports every VPA with the name of its target reference
    replaced by [f], and is [vc] otherwise. *)
Definition retargeted {St : Type} (f : VPA -> string)
    (vc : versioned_Clientset St) : versioned_Clientset St :=
  {| VerticalPodAutoscalers_List := fun ns s =>
       (match fst (VerticalPodAutoscalers_List vc ns s) with
        | inl V => inl (map (fun v => retarget (f v) v) V)
        | inr e => inr e
        end,
        snd (VerticalPodAutoscalers_List vc ns s));
     VerticalPodAutoscalers_Create := VerticalPodAutoscalers_Create vc;
     VerticalPodAutoscalers_Delete := VerticalPodAutoscalers_Delete vc |}.

(** The fault table that refuses to delete the object named [n]. *)
Definition denyDelete (n : string) : fake.Faults :=
  {| fake.createFault := fun _ _ => None;
     fake.deleteFault := fun _ n' =>
       if (n' =? n) then Some "forbidden" else None |}.

(** The fault table that refuses to create the object named [n]. *)
Definition denyCreate (n : string) : fake.Faults :=
  {| fake.createFault := fun _ o =>
       if (vName o =? n) then Some "forbidden" else None;
     fake.deleteFault := fun _ _ => None |}.

(** ** More to read off a trace *)

(** The pauses of a trace, in minutes. *)
Fixpoint sleeps (tr : list event) : list nat :=
  match tr with
  | [] => []
  | Sleep m :: t => m :: sleeps t
  | _ :: t => sleeps t
  end.

Definition notSleep (e : event) : Prop :=
  match e with
  | Sleep _ => False
  | _ => True
  end.

Definition isLog (msg : string) (e : event) : bool :=
  match e with
  | Slog _ m _ => (m =? msg)
  | _ => false
  end.

(** How many log lines of a trace carry the message [msg]. *)
Definition logged (msg : string) (tr : list event) : nat :=
  length (filter (isLog msg) tr).

(** Every [Create] call of the trace has its "building VPA" line and its
    "created" line. *)
Definition createsLogged (tr : list event) : Prop :=
  logged "building VPA" tr = length (createCalls tr) /\
  logged "created" tr = length (createCalls tr).

(** [emitsLogged m]: whatever the state and whatever the clients answer,
    the trace [m] leaves satisfies [createsLogged]. *)
Definition emitsLogged {St A : Type} (m : Go St A) : Prop :=
  forall s, createsLogged (emitted (m s)).

(** [e] is what the cluster answered to the one [Delete] call of [tr]. *)
Definition failedDelete {St : Type} (vc : versioned_Clientset St)
    (e : error) (tr : list event) : Prop :=
  exists ns n s,
    tr = [Delete ns n] /\
    fst (VerticalPodAutoscalers_Delete vc ns n s) = Some e.

(** How one turn of a loop that may stop early relates to [act]: it goes
    on after doing [act], or it stops having done a prefix of it. *)
Definition turnOutcome (act : list event) (R : error -> list event -> Prop)
    (r : res (option error)) (tr : list event) : Prop :=
  (r = Val None /\ actions tr = act) \/
  (r <> Val None /\
   (exists rest, act = actions tr ++ rest) /\
   forall e, r = Val (Some e) -> R e (actions tr)).

(** ** Clients whose listings may fail *)

Module stub.
Definition vpaClient (vpas : list VPA + error) (F : fake.Faults)
    : versioned_Clientset unit :=
  {| VerticalPodAutoscalers_List := fun _ s => (vpas, s);
     VerticalPodAutoscalers_Create :=
       VerticalPodAutoscalers_Create (fake.vpaClient [] F);
     VerticalPodAutoscalers_Delete :=
       VerticalPodAutoscalers_Delete (fake.vpaClient [] F) |}.

Definition k8sClient (D : list Deployment + error)
    (S : list StatefulSet + error) (Dm : list DaemonSet + error)
    : kubernetes_Clientset unit :=
  {| Deployments_List := fun _ s => (D, s);
     StatefulSets_List := fun _ s => (S, s);
     DaemonSets_List := fun _ s => (Dm, s) |}.
End stub.

(** ** The loop of [src/main.go]

    The other [main] of the repository does the work in the body of its
    loop, for Deployments only.  [log.Fatal(err)] prints the error and ends
    the process: an iteration answers [Some err] when it ended that way and
    [None] when the loop goes on. *)

Module legacy.
Section Loop.
Context {St : Type}.

(** The body of [for { ... }] in [main]. *)
Definition iteration (custom : versioned_Clientset St)
    (clientset : kubernetes_Clientset St) : Go St (option error) :=
  slog Info "Scanning for changes" [] ;;
  r <- call (VerticalPodAutoscalers_List custom "") [] ;;
  match r with
  | inr err =>
      slog Error "failed to fetch VerticalPodAutoscalers" [("error", err)] ;;
      time_Sleep 5 ;;
      ret None
  | inl vpas =>
  r <- call (Deployments_List clientset "") [] ;;
  match r with
  | inr err =>
      slog Error "failed to fetch Deployments" [("error", err)] ;;
      time_Sleep 5 ;;
      ret None
  | inl deployments =>
  range deployments (fun d =>
    found <- eval (slices_ContainsFunc vpas (fun v =>
               Val ((metav1.Name (Deployment_ObjectMeta d) =? vName v) &&
                    (metav1.Namespace (Deployment_ObjectMeta d)
                       =? vNamespace v)))) ;;
    if (found : bool) then ret tt
    else
      slog Info "Building VPA"
        [("deployment", metav1.Name (Deployment_ObjectMeta d));
         ("namespace", metav1.Namespace (Deployment_ObjectMeta d))] ;;
      let off := UpdateModeOff in
      let o :=
        {| ObjectMeta :=
             {| metav1.Name := metav1.Name (Deployment_ObjectMeta d);
                metav1.Namespace :=
                  metav1.Namespace (Deployment_ObjectMeta d) |};
           Spec :=
             {| TargetRef :=
                  Some {| autoscalingv1.APIVersion := "apps/v1";
                          autoscalingv1.Kind := "Deployment";
                          autoscalingv1.Name :=
                            metav1.Name (Deployment_ObjectMeta d) |};
                UpdatePolicy :=
                  Some {| PodUpdatePolicy_UpdateMode := Some off |} |} |} in
      r <- call (VerticalPodAutoscalers_Create custom
                   (metav1.Namespace (Deployment_ObjectMeta d)) o)
                [Create (metav1.Namespace (Deployment_ObjectMeta d)) o] ;;
      let '(res, err) := r in
      match err with
      | Some e =>
          slog Error "failed to create vpa"
            [("error", e);
             ("deployment", metav1.Name (Deployment_ObjectMeta d));
             ("namespace", metav1.Namespace (Deployment_ObjectMeta d))]
      | None => ret tt
      end ;;
      slog Info "Created" [("vpa", vName res); ("namespace", vNamespace res)]) ;;
  r <- rangeReturning vpas (fun v =>
    found <- eval (slices_ContainsFunc deployments (fun d =>
               Val ((metav1.Name (Deployment_ObjectMeta d) =? vName v) &&
                    (metav1.Namespace (Deployment_ObjectMeta d)
                       =? vNamespace v)))) ;;
    if (found : bool) then ret None else
    err <- call (VerticalPodAutoscalers_Delete custom (vNamespace v) (vName v))
                [Delete (vNamespace v) (vName v)] ;;
    match err with
    | Some e => ret (Some e)
    | None =>
        slog Info "Deleting" [("vpa", vName v); ("namespace", vNamespace v)] ;;
        ret None
    end) ;;
  match r with
  | Some err => ret (Some err)
  | None => time_Sleep 5 ;; ret None
  end
  end end.

(** The first [n] turns of the loop, or fewer when one ends the process. *)
Fixpoint main (n : nat) (custom : versioned_Clientset St)
    (clientset : kubernetes_Clientset St) : Go St (option error) :=
  match n with
  | O => ret None
  | S k =>
      r <- iteration custom clientset ;;
      match r with
      | Some err => ret (Some err)
      | None => main k custom clientset
      end
  end.
End Loop.

(** A Deployment of the VPA's name and namespace. *)
Definition hasDeployment (D : list Deployment) (v : VPA) : bool :=
  existsb (fun d => (metav1.Name (Deployment_ObjectMeta d) =? vName v) &&
                    (metav1.Namespace (Deployment_ObjectMeta d)
                       =? vNamespace v)) D.

(** One iteration over the modelled cluster. *)
Definition pass (D : list Deployment) (V : list VPA)
    : Out (list VPA) (option error) :=
  iteration kube.vpaClient (kube.k8sClient D [] []) V.

(** The cluster after the delete step for [v]. *)
Definition afterDelete (D : list Deployment) (v : VPA) (s : list VPA)
    : list VPA :=
  if hasDeployment D v then s
  else filter (fun x => negb (kube.sameKey (vNamespace v) (vName v) x)) s.

Definition afterDeletes (D : list Deployment) (V : list VPA) (s : list VPA)
    : list VPA :=
  fold_left (fun s v => afterDelete D v s) V s.
End legacy.

(** ** A journal of the [Delete] calls

    The trace of a run shows which calls were made, not what the cluster
    answered.  To read the answers off a run, the client is wrapped: the
    wrapper hands every call to the client it wraps, in the state that
    client is in, gives back its answer unchanged, and notes each [Delete]
    call with that answer in a journal kept beside the state. *)

Definition Journal : Type := list ((string * string) * option error).

Definition recording {St : Type} (vc : versioned_Clientset St)
    : versioned_Clientset (St * Journal) :=
  {| VerticalPodAutoscalers_List := fun ns sj =>
       let r := VerticalPodAutoscalers_List vc ns (fst sj) in
       (fst r, (snd r, snd sj));
     VerticalPodAutoscalers_Create := fun ns o sj =>
       let r := VerticalPodAutoscalers_Create vc ns o (fst sj) in
       (fst r, (snd r, snd sj));
     VerticalPodAutoscalers_Delete := fun ns n sj =>
       let r := VerticalPodAutoscalers_Delete vc ns n (fst sj) in
       (fst r, (snd r, snd sj ++ [((ns, n), fst r)])) |}.

(** The workload client beside a journal it never writes. *)
Definition beside {St : Type} (kc : kubernetes_Clientset St)
    : kubernetes_Clientset (St * Journal) :=
  {| Deployments_List := fun ns sj =>
       let r := Deployments_List kc ns (fst sj) in (fst r, (snd r, snd sj));
     StatefulSets_List := fun ns sj =>
       let r := StatefulSets_List kc ns (fst sj) in (fst r, (snd r, snd sj));
     DaemonSets_List := fun ns sj =>
       let r := DaemonSets_List kc ns (fst sj) in (fst r, (snd r, snd sj)) |}.

(** The call noted in [x] succeeded. *)
Definition answeredNone (x : (string * string) * option error) : Prop :=
  snd x = None.

(** The entries [jl] a statement added to the journal, when it ended with
    [r]: an error it returned is the answer noted last and every call
    before that one succeeded; without error returned, every call
    succeeded. *)
Definition lastAnswer (r : res (option error)) (jl : Journal) : Prop :=
  match r with
  | Val (Some e) =>
      exists pre k, jl = pre ++ [(k, Some e)] /\ Forall answeredNone pre
  | _ => Forall answeredNone jl
  end.

(** [o] started with the journal [j] and added to it one entry for each
    [Delete] call of its trace, in order. *)
Definition journaled {St : Type} (o : Out (St * Journal) (option error))
    (j : Journal) : Prop :=
  exists jl,
    snd (final o) = j ++ jl /\
    map fst jl = deleteCalls (emitted o) /\
    lastAnswer (result o) jl.

(** [m'] does what [m] does, with a journal beside the state. *)
Definition simulates {St A : Type} (m : Go St A) (m' : Go (St * Journal) A)
    : Prop :=
  forall s j,
    result (m' (s, j)) = result (m s) /\
    emitted (m' (s, j)) = emitted (m s) /\
    fst (final (m' (s, j))) = final (m s).

(** [m] leaves the journal as it is and makes no [Delete] call. *)
Definition quiet {St A : Type} (m : Go (St * Journal) A) : Prop :=
  forall sj,
    snd (final (m sj)) = snd sj /\ deleteCalls (emitted (m sj)) = [].

(** The journal of one run of [createVPAs] from the state [s0]. *)
Definition deleteJournal {St : Type} (vc : versioned_Clientset St)
    (kc : kubernetes_Clientset St) (s0 : St) : Journal :=
  snd (final (createVPAs (recording vc) (beside kc) (s0, []))).

(** The journal of one iteration of the loop of [src/main.go]. *)
Definition legacyDeleteJournal {St : Type} (vc : versioned_Clientset St)
    (kc : kubernetes_Clientset St) (s0 : St) : Journal :=
  snd (final (legacy.iteration (recording vc) (beside kc) (s0, []))).

(** ** Scenarios *)

Definition apiDeployment : Deployment := mkDeployment "api" "ns".
Definition apiStatefulSet : StatefulSet := mkStatefulSet "api" "ns".

(** The VPA "api" of namespace "ns", targeting a StatefulSet. *)
Definition apiVPA : VPA := mkVPA "api" "ns" "StatefulSet" "api".

Definition webDeployment : Deployment := mkDeployment "web" "default".
Definition dbStatefulSet : StatefulSet := mkStatefulSet "db" "default".
Definition oldVPA : VPA := mkVPA "old" "default" "Deployment" "old".
Definition goldilocksVPA : VPA :=
  mkVPA "goldilocks-web" "default" "Deployment" "web".

(** The VPA "api" of namespace "ns" whose target reference names "other". *)
Definition apiVPAForOther : VPA := mkVPA "api" "ns" "Deployment" "other".

Definition old1VPA : VPA := mkVPA "old1" "default" "Deployment" "old1".
Definition old2VPA : VPA := mkVPA "old2" "default" "Deployment" "old2".

(** The cluster after one pass over the Deployment "api" and the VPA "api"
    that targets a StatefulSet. *)
Definition apiAfterPass : list VPA :=
  final (kube.pass [apiDeployment] [] [] [apiVPA]).

(** The cluster after one pass over "web", "db" and the VPA "old". *)
Definition webAfterPass : list VPA :=
  final (kube.pass [webDeployment] [dbStatefulSet] [] [oldVPA]).

(** A run in which the cluster refuses to delete "old1". *)
Definition refusedDelete : Out unit (option error) :=
  createVPAs (fake.vpaClient [old1VPA; old2VPA] (denyDelete "old1"))
    (fake.k8sClient [webDeployment; mkDeployment "api" "default"] [] []) tt.

(** The turn of [main]'s loop around that run. *)
Definition refusedDeleteCycle : Out unit unit :=
  cycle (fake.vpaClient [old1VPA; old2VPA] (denyDelete "old1"))
    (fake.k8sClient [webDeployment; mkDeployment "api" "default"] [] []) tt.

(** A run over the same snapshots in which it refuses to create "web". *)
Definition refusedCreate : Out unit (option error) :=
  createVPAs (fake.vpaClient [old1VPA; old2VPA] (denyCreate "web"))
    (fake.k8sClient [webDeployment; mkDeployment "api" "default"] [] []) tt.

(** Two VPAs without Deployment of their name: one with the reserved
    prefix, one that targets a StatefulSet. *)
Definition legacyOrphans : list VPA :=
  [goldilocksVPA; mkVPA "db" "default" "StatefulSet" "db"].

(** A cluster that deletes "old1" and refuses to delete "old2". *)
Definition refusingOld2 : versioned_Clientset unit :=
  fake.vpaClient [old1VPA; old2VPA] (denyDelete "old2").

(** A client that lists one VPA, "api" in "ns", without target reference. *)
Definition bareClient : versioned_Clientset unit :=
  fake.vpaClient [mkBareVPA "api" "ns"] fake.noFaults.

(** * Properties *)

(** ** The monad *)

Lemma bind_val {St A B : Type} (m : Go St A) (f : A -> Go St B)
    (s s' : St) (a : A) (tr : list event) :
  m s = mkOut (Val a) s' tr ->
  bind m f s = mkOut (result (f a s')) (final (f a s')) (tr ++ emitted (f a s')).
Proof. intros E. unfold bind. rewrite E. reflexivity. Qed.

Lemma emitted_bind {St A B : Type} (m : Go St A) (f : A -> Go St B) (s : St) :
  emitted (bind m f s) =
  emitted (m s) ++
  match result (m s) with
  | Val a => emitted (f a (final (m s)))
  | Panic => []
  end.
Proof.
  unfold bind. destruct (result (m s)); simpl; [reflexivity|].
  now rewrite app_nil_r.
Qed.

(** ** Traces *)

Lemma actions_app (t1 t2 : list event) :
  actions (t1 ++ t2) = actions t1 ++ actions t2.
Proof. apply filter_app. Qed.

Lemma createCalls_app (t1 t2 : list event) :
  createCalls (t1 ++ t2) = createCalls t1 ++ createCalls t2.
Proof.
  induction t1 as [|e t1 IH]; simpl; [reflexivity|].
  destruct e; simpl; rewrite IH; reflexivity.
Qed.

Lemma deleteCalls_app (t1 t2 : list event) :
  deleteCalls (t1 ++ t2) = deleteCalls t1 ++ deleteCalls t2.
Proof.
  induction t1 as [|e t1 IH]; simpl; [reflexivity|].
  destruct e; simpl; rewrite IH; reflexivity.
Qed.

Lemma createCalls_actions (tr : list event) :
  createCalls (actions tr) = createCalls tr.
Proof.
  induction tr as [|e tr IH]; simpl; [reflexivity|].
  destruct e; simpl; rewrite ?IH; reflexivity.
Qed.

Lemma deleteCalls_actions (tr : list event) :
  deleteCalls (actions tr) = deleteCalls tr.
Proof.
  induction tr as [|e tr IH]; simpl; [reflexivity|].
  destruct e; simpl; rewrite ?IH; reflexivity.
Qed.

Lemma createCalls_createActions (ws : list WorkloadRef) :
  createCalls (map createAction ws) =
  map (fun w => (namespace w, ManagedVPASpec w)) ws.
Proof. induction ws as [|w ws IH]; simpl; [reflexivity|]. now rewrite IH. Qed.

Lemma createCalls_deleteActions (vs : list VPA) :
  createCalls (map deleteAction vs) = [].
Proof. induction vs as [|v vs IH]; simpl; auto. Qed.

Lemma deleteCalls_createActions (ws : list WorkloadRef) :
  deleteCalls (map createAction ws) = [].
Proof. induction ws as [|w ws IH]; simpl; auto. Qed.

Lemma deleteCalls_deleteActions (vs : list VPA) :
  deleteCalls (map deleteAction vs) =
  map (fun v => (vNamespace v, vName v)) vs.
Proof. induction vs as [|v vs IH]; simpl; [reflexivity|]. now rewrite IH. Qed.

Lemma In_createCalls (tr : list event) (ns : string) (o : VPA) :
  In (ns, o) (createCalls tr) <-> In (Create ns o) tr.
Proof.
  induction tr as [|e tr IH]; simpl; [tauto|].
  destruct e; simpl; rewrite IH; split; intros H;
    try (destruct H as [H|H]; [try discriminate; inversion H; subst; auto | auto]);
    auto.
Qed.

Lemma In_deleteCalls (tr : list event) (ns n : string) :
  In (ns, n) (deleteCalls tr) <-> In (Delete ns n) tr.
Proof.
  induction tr as [|e tr IH]; simpl; [tauto|].
  destruct e; simpl; rewrite IH; split; intros H;
    try (destruct H as [H|H]; [try discriminate; inversion H; subst; auto | auto]);
    auto.
Qed.

(** ** What a statement can emit *)

Section EmitsOnly.
Context {St : Type} (P : event -> Prop).

Lemma emitsOnly_ret {A : Type} (a : A) : emitsOnly P (ret (St := St) a).
Proof. intros s. constructor. Qed.

Lemma emitsOnly_eval {A : Type} (r : res A) : emitsOnly P (eval (St := St) r).
Proof. intros s. constructor. Qed.

Lemma emitsOnly_slog lvl msg attrs :
  P (Slog lvl msg attrs) -> emitsOnly P (slog (St := St) lvl msg attrs).
Proof. intros H s. simpl. auto. Qed.

Lemma emitsOnly_sleep n : P (Sleep n) -> emitsOnly P (time_Sleep (St := St) n).
Proof. intros H s. simpl. auto. Qed.

Lemma emitsOnly_call {A : Type} (f : St -> A * St) (evs : list event) :
  Forall P evs -> emitsOnly P (call f evs).
Proof. intros H s. exact H. Qed.

Lemma emitsOnly_bind {A B : Type} (m : Go St A) (f : A -> Go St B) :
  emitsOnly P m -> (forall a, emitsOnly P (f a)) -> emitsOnly P (bind m f).
Proof.
  intros Hm Hf s. rewrite emitted_bind. apply Forall_app. split; [apply Hm|].
  destruct (result (m s)); [apply Hf | constructor].
Qed.

Lemma emitsOnly_range {A : Type} (items : list A) (body : A -> Go St unit) :
  (forall x, emitsOnly P (body x)) -> emitsOnly P (range items body).
Proof.
  intros Hb. induction items as [|x t IH]; simpl.
  - apply emitsOnly_ret.
  - apply emitsOnly_bind; auto.
Qed.

Lemma emitsOnly_rangeReturning {A : Type} (items : list A)
    (body : A -> Go St (option error)) :
  (forall x, emitsOnly P (body x)) -> emitsOnly P (rangeReturning items body).
Proof.
  intros Hb. induction items as [|x t IH]; simpl.
  - apply emitsOnly_ret.
  - apply emitsOnly_bind; auto.
    intros [e|]; [apply emitsOnly_ret | exact IH].
Qed.
End EmitsOnly.

(** One step of a proof that a statement emits only [P]-events. *)
Ltac emits_step :=
  first
    [ apply emitsOnly_bind; [|intros ?]
    | apply emitsOnly_ret
    | apply emitsOnly_eval
    | apply emitsOnly_range; intros ?
    | apply emitsOnly_rangeReturning; intros ?
    | apply emitsOnly_slog
    | apply emitsOnly_sleep
    | apply emitsOnly_call
    | match goal with
      | |- emitsOnly _ (match ?x with _ => _ end) => destruct x eqn:?
      | |- emitsOnly _ (let '(_, _) := ?x in _) => destruct x eqn:?
      end ].

(** Closes the goals [emits_step] leaves about single events. *)
Ltac emits_done :=
  repeat (apply Forall_cons || apply Forall_nil); simpl; auto.

(** ** The exemption *)

Lemma createVPA_sparesExempt {St T : Type} `{vpaTarget T} (target : T)
    (apiVersion k : string) (vpas : list VPA) (vc : versioned_Clientset St) :
  emitsOnly sparesExempt (createVPA target apiVersion k vpas vc).
Proof.
  unfold createVPA. repeat emits_step; emits_done.
Qed.

Lemma createVPAs_sparesExempt {St : Type} (vc : versioned_Clientset St)
    (kc : kubernetes_Clientset St) :
  emitsOnly sparesExempt (createVPAs vc kc).
Proof.
  unfold createVPAs.
  repeat first [ apply createVPA_sparesExempt | emits_step ]; emits_done.
Qed.

Lemma mainLoop_sparesExempt {St : Type} (vc : versioned_Clientset St)
    (kc : kubernetes_Clientset St) (n : nat) :
  emitsOnly sparesExempt (mainLoop n vc kc).
Proof.
  induction n as [|n IH]; simpl.
  - apply emitsOnly_ret.
  - apply emitsOnly_bind; [|intros _; exact IH].
    unfold cycle.
    repeat first [ apply createVPAs_sparesExempt | emits_step ]; emits_done.
Qed.

(** ** Matching *)

Lemma ContainsFunc_Val {A : Type} (f : A -> bool) (l : list A) :
  slices_ContainsFunc l (fun x => Val (f x)) = Val (existsb f l).
Proof.
  induction l as [|x l IH]; simpl; [reflexivity|].
  destruct (f x); simpl; auto.
Qed.

Lemma existsb_map' {A B : Type} (f : B -> bool) (g : A -> B) (l : list A) :
  existsb f (map g l) = existsb (fun x => f (g x)) l.
Proof. induction l as [|x l IH]; simpl; [reflexivity|]. now rewrite IH. Qed.

Lemma existsb_ext' {A : Type} (f g : A -> bool) (l : list A) :
  (forall x, f x = g x) -> existsb f l = existsb g l.
Proof.
  intros E. induction l as [|x l IH]; simpl; [reflexivity|].
  now rewrite E, IH.
Qed.

(** The create-side test of [createVPA] is [hasVPA]. *)
Lemma createVPA_test {T : Type} `{vpaTarget T} (k : string) (target : T)
    (V : list VPA) :
  existsb (fun v => (GetName target =? vName v) &&
                    (GetNamespace target =? vNamespace v)) V =
  hasVPA V (refOf k target).
Proof.
  unfold hasVPA. apply existsb_ext'. intros v. simpl.
  now rewrite (String.eqb_sym (vName v)), (String.eqb_sym (vNamespace v)).
Qed.

(** One of the three delete-side tests of [createVPAs], for a VPA that has
    a target reference. *)
Lemma deleteSide_test {T : Type} (gn gns : T -> string) (l : list T)
    (v : VPA) (k : string) :
  hasTargetRef v ->
  slices_ContainsFunc l (fun d =>
    if (gn d =? vName v) && (gns d =? vNamespace v)
    then match deref (TargetRef (Spec v)) with
         | Val t => Val (autoscalingv1.Kind t =? k)
         | Panic => Panic
         end
    else Val false) =
  Val (existsb (fun d => (gn d =? vName v) && (gns d =? vNamespace v)
                         && (targetKind v =? k)) l).
Proof.
  unfold hasTargetRef, targetKind. intros HT.
  destruct (TargetRef (Spec v)) as [t|]; [|congruence]. simpl.
  induction l as [|d l IH]; simpl; [reflexivity|].
  destruct ((gn d =? vName v) && (gns d =? vNamespace v)); simpl.
  - destruct (autoscalingv1.Kind t =? k); simpl; auto.
  - exact IH.
Qed.

(** The three tests together are [hasWorkload] over the whole snapshot. *)
Lemma hasWorkload_workloads (D : list Deployment) (S : list StatefulSet)
    (Dm : list DaemonSet) (v : VPA) :
  hasWorkload (workloads D S Dm) v =
  existsb (fun d => (GetName d =? vName v) && (GetNamespace d =? vNamespace v)
                    && (targetKind v =? "Deployment")) D
  || existsb (fun s => (GetName s =? vName v) && (GetNamespace s =? vNamespace v)
                       && (targetKind v =? "StatefulSet")) S
  || existsb (fun d => (GetName d =? vName v) && (GetNamespace d =? vNamespace v)
                       && (targetKind v =? "DaemonSet")) Dm.
Proof.
  unfold hasWorkload, workloads.
  rewrite !existsb_app, !existsb_map', orb_assoc.
  f_equal; [f_equal|]; apply existsb_ext'; intros x; simpl;
    now rewrite (String.eqb_sym (targetKind v)).
Qed.

Lemma hasVPA_spec (V : list VPA) (w : WorkloadRef) :
  hasVPA V w = true <->
  exists v, In v V /\ vName v = name w /\ vNamespace v = namespace w.
Proof.
  unfold hasVPA. rewrite existsb_exists. split.
  - intros (v & Hin & Hb). apply andb_true_iff in Hb. destruct Hb as [H1 H2].
    apply String.eqb_eq in H1, H2. eauto.
  - intros (v & Hin & H1 & H2). exists v. split; [assumption|].
    now rewrite H1, H2, !String.eqb_refl.
Qed.

Lemma hasWorkload_spec (W : list WorkloadRef) (v : VPA) :
  hasWorkload W v = true <->
  exists w, In w W /\ name w = vName v /\ namespace w = vNamespace v
            /\ kind w = targetKind v.
Proof.
  unfold hasWorkload. rewrite existsb_exists. split.
  - intros (w & Hin & Hb). rewrite !andb_true_iff in Hb.
    destruct Hb as [[H1 H2] H3]. apply String.eqb_eq in H1, H2, H3. eauto.
  - intros (w & Hin & H1 & H2 & H3). exists w. split; [assumption|].
    now rewrite H1, H2, H3, !String.eqb_refl.
Qed.

(** ** The loops *)

(** A loop all of whose iterations finish and act as [act] says. *)
Lemma range_acts {St A : Type} (body : A -> Go St unit)
    (act : A -> list event) (items : list A) :
  (forall x s, In x items ->
     exists s' tr, body x s = mkOut (Val tt) s' tr /\ actions tr = act x) ->
  forall s, exists s' tr,
    range items body s = mkOut (Val tt) s' tr /\
    actions tr = flat_map act items.
Proof.
  induction items as [|x t IH]; intros Hb s; simpl.
  - exists s, []. split; reflexivity.
  - destruct (Hb x s (or_introl eq_refl)) as (s1 & tr1 & E1 & A1).
    destruct (IH (fun y s' Hy => Hb y s' (or_intror Hy)) s1)
      as (s2 & tr2 & E2 & A2).
    exists s2, (tr1 ++ tr2). erewrite bind_val by exact E1. cbv beta iota. rewrite E2. simpl.
    split; [reflexivity|]. now rewrite actions_app, A1, A2.
Qed.

(** The same for a loop whose body may return, when no iteration does. *)
Lemma rangeReturning_acts {St A : Type} (body : A -> Go St (option error))
    (act : A -> list event) (items : list A) :
  (forall x s, In x items ->
     exists s' tr, body x s = mkOut (Val None) s' tr /\ actions tr = act x) ->
  forall s, exists s' tr,
    rangeReturning items body s = mkOut (Val None) s' tr /\
    actions tr = flat_map act items.
Proof.
  induction items as [|x t IH]; intros Hb s; simpl.
  - exists s, []. split; reflexivity.
  - destruct (Hb x s (or_introl eq_refl)) as (s1 & tr1 & E1 & A1).
    destruct (IH (fun y s' Hy => Hb y s' (or_intror Hy)) s1)
      as (s2 & tr2 & E2 & A2).
    exists s2, (tr1 ++ tr2). erewrite bind_val by exact E1. cbv beta iota. rewrite E2. simpl.
    split; [reflexivity|]. now rewrite actions_app, A1, A2.
Qed.

Lemma flat_map_filter {A B : Type} (keep : A -> bool) (f : A -> B)
    (l : list A) :
  flat_map (fun x => if keep x then [f x] else []) l = map f (filter keep l).
Proof.
  induction l as [|x l IH]; simpl; [reflexivity|].
  destruct (keep x); simpl; now rewrite IH.
Qed.

(** ** The create side *)

(** [createVPA] never fails the caller: it makes one [Create] call when the
    snapshot has no VPA of that name and namespace, none otherwise, whatever
    the call answers. *)
Lemma createVPA_acts {St T : Type} `{vpaTarget T} (target : T) (k : string)
    (V : list VPA) (vc : versioned_Clientset St) (s : St) :
  exists s' tr,
    createVPA target "apps/v1" k V vc s = mkOut (Val tt) s' tr /\
    actions tr =
      if negb (hasVPA V (refOf k target))
      then [createAction (refOf k target)] else [].
Proof.
  unfold createVPA. rewrite ContainsFunc_Val, (createVPA_test k).
  unfold bind, eval, call, slog, ret. simpl.
  destruct (hasVPA V (refOf k target)); simpl.
  - eauto.
  - destruct (VerticalPodAutoscalers_Create vc _ _ s) as [[r [e|]] s']; simpl;
      eexists; eexists; (split; [reflexivity|reflexivity]).
Qed.

Lemma range_createVPA_acts {St T : Type} `{vpaTarget T} (items : list T)
    (k : string) (V : list VPA) (vc : versioned_Clientset St) (s : St) :
  exists s' tr,
    range items (fun d => createVPA d "apps/v1" k V vc) s
      = mkOut (Val tt) s' tr /\
    actions tr =
      map createAction
        (filter (fun w => negb (hasVPA V w)) (map (refOf k) items)).
Proof.
  destruct (range_acts (fun d => createVPA d "apps/v1" k V vc)
              (fun d => if negb (hasVPA V (refOf k d))
                        then [createAction (refOf k d)] else [])
              items (fun x s' _ => createVPA_acts x k V vc s') s)
    as (s' & tr & E & A).
  exists s', tr. split; [exact E|]. rewrite A.
  rewrite (flat_map_filter (fun d => negb (hasVPA V (refOf k d)))
             (fun d => createAction (refOf k d))).
  clear. induction items as [|x t IH]; simpl; [reflexivity|].
  destruct (negb (hasVPA V (refOf k x))); simpl; now rewrite IH.
Qed.

(** ** The plan *)

Lemma ManagedVPASpec_inj (w1 w2 : WorkloadRef) :
  ManagedVPASpec w1 = ManagedVPASpec w2 -> w1 = w2.
Proof.
  destruct w1 as [k1 n1 ns1], w2 as [k2 n2 ns2]. unfold ManagedVPASpec. simpl.
  intros E. inversion E. reflexivity.
Qed.

Lemma In_toCreate (W : list WorkloadRef) (V : list VPA) (w : WorkloadRef) :
  In w (toCreate (Plan W V)) <->
  In w W /\
  ~ exists v, In v V /\ vName v = name w /\ vNamespace v = namespace w.
Proof.
  simpl. rewrite filter_In, <- hasVPA_spec.
  destruct (hasVPA V w); simpl; intuition congruence.
Qed.

Lemma In_toDelete (W : list WorkloadRef) (V : list VPA) (v : VPA) :
  In v (toDelete (Plan W V)) <->
  In v V /\
  (~ exists w, In w W /\ name w = vName v /\ namespace w = vNamespace v
               /\ kind w = targetKind v) /\
  String.prefix "goldilocks" (vName v) = false.
Proof.
  simpl. rewrite filter_In, <- hasWorkload_spec. unfold exempt.
  destruct (hasWorkload W v), (String.prefix "goldilocks" (vName v)); simpl;
    intuition congruence.
Qed.

Lemma toCreate_by_kind (D : list Deployment) (S : list StatefulSet)
    (Dm : list DaemonSet) (V : list VPA) :
  toCreate (Plan (workloads D S Dm) V) =
  map (refOf "Deployment")
    (filter (fun d => negb (hasVPA V (refOf "Deployment" d))) D) ++
  map (refOf "StatefulSet")
    (filter (fun s => negb (hasVPA V (refOf "StatefulSet" s))) S) ++
  map (refOf "DaemonSet")
    (filter (fun d => negb (hasVPA V (refOf "DaemonSet" d))) Dm).
Proof.
  assert (FM : forall (T : Type) (g : T -> WorkloadRef) (l : list T),
             filter (fun w => negb (hasVPA V w)) (map g l) =
             map g (filter (fun x => negb (hasVPA V (g x))) l)).
  { intros T g l. induction l as [|x l IH]; simpl; [reflexivity|].
    destruct (negb (hasVPA V (g x))); simpl; now rewrite IH. }
  simpl. unfold workloads. now rewrite !filter_app, !FM.
Qed.

Lemma notCreate_createCalls (tr : list event) :
  Forall notCreate tr -> createCalls tr = [].
Proof.
  induction 1 as [|e tr He _ IH]; simpl; [reflexivity|].
  destruct e; simpl in *; tauto.
Qed.

Lemma createActions_notDelete (ws : list WorkloadRef) (tr : list event) :
  actions tr = map createAction ws -> deleteCalls tr = [].
Proof.
  intros E. now rewrite <- deleteCalls_actions, E, deleteCalls_createActions.
Qed.

(** ** One run against a given snapshot *)

Section Snapshot.
Context {St : Type} (vc : versioned_Clientset St)
  (kc : kubernetes_Clientset St).
Variables (deployments : list Deployment) (statefulSets : list StatefulSet)
  (daemonSets : list DaemonSet) (vpas : list VPA) (s0 : St).

Hypothesis listVPAs :
  fst (VerticalPodAutoscalers_List vc "" s0) = inl vpas.
Hypothesis listDeployments :
  forall s, fst (Deployments_List kc "" s) = inl deployments.
Hypothesis listStatefulSets :
  forall s, fst (StatefulSets_List kc "" s) = inl statefulSets.
Hypothesis listDaemonSets :
  forall s, fst (DaemonSets_List kc "" s) = inl daemonSets.

Local Abbreviation W := (workloads deployments statefulSets daemonSets).

(** Runs the listings and the three create loops of [createVPAs]. *)
Ltac run_creates :=
  unfold createVPAs;
  erewrite bind_val by reflexivity;
  erewrite bind_val by reflexivity; rewrite listVPAs;
  erewrite bind_val by reflexivity; rewrite listDeployments;
  match goal with |- context [bind (range deployments _) _ ?s] =>
    let s1 := fresh "s1" in let tr1 := fresh "tr1" in
    let E1 := fresh "E1" in let A1 := fresh "A1" in
    destruct (range_createVPA_acts deployments "Deployment" vpas vc s)
      as (s1 & tr1 & E1 & A1);
    erewrite bind_val by exact E1; cbn [result final emitted]
  end;
  erewrite bind_val by reflexivity; rewrite listStatefulSets;
  match goal with |- context [bind (range statefulSets _) _ ?s] =>
    let s2 := fresh "s2" in let tr2 := fresh "tr2" in
    let E2 := fresh "E2" in let A2 := fresh "A2" in
    destruct (range_createVPA_acts statefulSets "StatefulSet" vpas vc s)
      as (s2 & tr2 & E2 & A2);
    erewrite bind_val by exact E2; cbn [result final emitted]
  end;
  erewrite bind_val by reflexivity; rewrite listDaemonSets;
  match goal with |- context [bind (range daemonSets _) _ ?s] =>
    let s3 := fresh "s3" in let tr3 := fresh "tr3" in
    let E3 := fresh "E3" in let A3 := fresh "A3" in
    destruct (range_createVPA_acts daemonSets "DaemonSet" vpas vc s)
      as (s3 & tr3 & E3 & A3);
    erewrite bind_val by exact E3; cbn [result final emitted]
  end.

(** Whatever the create and delete calls answer, the run splits in two:
    first the [Create] calls of the plan and no [Delete], then no
    [Create] any more. *)
Lemma createVPAs_creates :
  exists tr1 tr2,
    emitted (createVPAs vc kc s0) = tr1 ++ tr2 /\
    actions tr1 = map createAction (toCreate (Plan W vpas)) /\
    Forall notCreate tr2.
Proof.
  run_creates.
  match goal with |- context [emitted (?m s3)] =>
    exists ([Slog Info "scanning for changes" []] ++ tr1 ++ tr2 ++ tr3),
           (emitted (m s3))
  end.
  split; [|split].
  - simpl. now rewrite <- !app_assoc.
  - rewrite !actions_app, A1, A2, A3. simpl.
    unfold workloads. now rewrite !filter_app, !map_app.
  - match goal with |- Forall _ (emitted (?m _)) =>
      assert (HE : emitsOnly notCreate m); [|apply HE] end.
    repeat emits_step; emits_done.
Qed.

Lemma createVPAs_createCalls :
  createCalls (emitted (createVPAs vc kc s0)) =
  map (fun w => (namespace w, ManagedVPASpec w)) (toCreate (Plan W vpas)).
Proof.
  destruct createVPAs_creates as (tr1 & tr2 & E & A & N).
  rewrite E, createCalls_app, (notCreate_createCalls N), app_nil_r.
  now rewrite <- createCalls_actions, A, createCalls_createActions.
Qed.

(** When every VPA has a target reference and no [Delete] call fails, the
    run succeeds and its calls are those of the plan. *)
Lemma createVPAs_acts :
  Forall hasTargetRef vpas ->
  (forall v s, In v (toDelete (Plan W vpas)) ->
     fst (VerticalPodAutoscalers_Delete vc (vNamespace v) (vName v) s) = None) ->
  result (createVPAs vc kc s0) = Val None /\
  actions (emitted (createVPAs vc kc s0)) =
    map createAction (toCreate (Plan W vpas)) ++
    map deleteAction (toDelete (Plan W vpas)).
Proof.
  intros HT HDel. run_creates.
  match goal with |- context [bind (rangeReturning vpas ?b) _ _] =>
    destruct (rangeReturning_acts b
                (fun v => if negb (hasWorkload W v) && negb (exempt v)
                          then [deleteAction v] else []) vpas) with (s := s3)
      as (s4 & tr4 & E4 & A4)
  end.
  { intros v s Hin.
    assert (Hv : hasTargetRef v) by (rewrite Forall_forall in HT; auto).
    rewrite !deleteSide_test by exact Hv.
    assert (HD : negb (hasWorkload W v) && negb (exempt v) = true ->
                 fst (VerticalPodAutoscalers_Delete vc (vNamespace v)
                        (vName v) s) = None).
    { intros Hb. apply HDel. simpl. apply filter_In. auto. }
    revert HD. rewrite hasWorkload_workloads.
    unfold exempt, strings_HasPrefix. cbn [GetName GetNamespace
      Deployment_vpaTarget StatefulSet_vpaTarget DaemonSet_vpaTarget].
    unfold bind at 1. unfold eval at 1. cbn [result final emitted].
    destruct (existsb _ deployments); cbn [orb negb andb].
    { intros _. exists s, []. split; reflexivity. }
    unfold bind at 1. unfold eval at 1. cbn [result final emitted].
    destruct (existsb _ statefulSets); cbn [orb negb andb].
    { intros _. exists s, []. split; reflexivity. }
    unfold bind at 1. unfold eval at 1. cbn [result final emitted].
    destruct (existsb _ daemonSets); cbn [orb negb andb].
    { intros _. exists s, []. split; reflexivity. }
    destruct (String.prefix "goldilocks" (vName v)); cbn [negb].
    { intros _. exists s, []. split; reflexivity. }
    intros HD. specialize (HD eq_refl).
    unfold bind, call, eval, slog, ret. cbn [result final emitted].
    rewrite HD. unfold hasTargetRef in Hv.
    destruct (TargetRef (Spec v)) as [t|]; [|congruence].
    cbn [deref result final emitted].
    eexists; eexists; split; reflexivity. }
  erewrite bind_val by exact E4. cbn [result final emitted].
  split; [reflexivity|].
  rewrite !actions_app, A1, A2, A3, A4. simpl.
  rewrite (flat_map_filter
             (fun v => negb (hasWorkload W v) && negb (exempt v))
             deleteAction).
  unfold workloads.
  now rewrite !filter_app, !map_app, <- !app_assoc, app_nil_r.
Qed.

(** *** Create side *)

(** C2. A workload gets a [Create] call, exactly one and carrying the
    managed VPA built from its kind, name and namespace, if and only if
    the snapshot has no VPA of its name and namespace; the kind of the
    VPA's target plays no part, so a VPA of that name and namespace for
    another kind suppresses the call.  This holds whatever the calls
    answer. *)
Theorem create_iff_no_vpa_of_name :
  createCalls (emitted (createVPAs vc kc s0)) =
    map (fun w => (namespace w, ManagedVPASpec w)) (toCreate (Plan W vpas)) /\
  (forall w, In w W ->
     (In w (toCreate (Plan W vpas)) <->
      ~ exists v, In v vpas /\ vName v = name w /\
                  vNamespace v = namespace w)) /\
  (forall w v, In w W -> In v vpas ->
     vName v = name w -> vNamespace v = namespace w ->
     ~ In (createAction w) (emitted (createVPAs vc kc s0))).
Proof.
  split; [exact createVPAs_createCalls|]. split.
  - intros w Hin. rewrite In_toCreate. tauto.
  - intros w v Hw Hv E1 E2 Hc. unfold createAction in Hc.
    apply In_createCalls in Hc. rewrite createVPAs_createCalls in Hc.
    apply in_map_iff in Hc. destruct Hc as (w' & E & Hin).
    assert (E4 := f_equal snd E). cbn [snd] in E4.
    apply ManagedVPASpec_inj in E4. subst w'.
    apply In_toCreate in Hin. destruct Hin as [_ Hn]. apply Hn. eauto.
Qed.

(** C7. Every VPA the run asks the cluster to create has the managed
    shape: the name and the namespace of a listed workload, the target
    reference ("apps/v1", the workload's kind, the workload's name), and
    the update mode "Off". *)
Theorem created_vpa_has_managed_shape (ns : string) (o : VPA) :
  In (Create ns o) (emitted (createVPAs vc kc s0)) ->
  exists w, In w W /\
    ns = namespace w /\
    vName o = name w /\
    vNamespace o = namespace w /\
    TargetRef (Spec o) =
      Some {| autoscalingv1.APIVersion := "apps/v1";
              autoscalingv1.Kind := kind w;
              autoscalingv1.Name := name w |} /\
    UpdatePolicy (Spec o) =
      Some {| PodUpdatePolicy_UpdateMode := Some "Off" |}.
Proof.
  intros Hc. apply In_createCalls in Hc.
  rewrite createVPAs_createCalls in Hc.
  apply in_map_iff in Hc. destruct Hc as (w & E & Hin).
  assert (E1 := f_equal fst E). assert (E2 := f_equal snd E).
  cbn [fst snd] in E1, E2. subst ns o.
  apply In_toCreate in Hin. destruct Hin as [Hw _].
  exists w. repeat split; auto.
Qed.

(** C8. The VPA snapshot is read once and not updated while the creates
    are derived: two workloads of different kinds with one name and
    namespace, and no VPA of that name and namespace in the snapshot, get
    two [Create] calls for the same name and namespace that differ in
    the target kind only. *)
Theorem same_name_workloads_both_created (w1 w2 : WorkloadRef) :
  In w1 W -> In w2 W ->
  name w1 = name w2 -> namespace w1 = namespace w2 ->
  kind w1 <> kind w2 ->
  (forall v, In v vpas ->
     ~ (vName v = name w1 /\ vNamespace v = namespace w1)) ->
  In (createAction w1) (emitted (createVPAs vc kc s0)) /\
  In (createAction w2) (emitted (createVPAs vc kc s0)) /\
  createAction w1 <> createAction w2 /\
  ObjectMeta (ManagedVPASpec w1) = ObjectMeta (ManagedVPASpec w2) /\
  ManagedVPASpec w2 =
    ManagedVPASpec
      {| kind := kind w2; name := name w1; namespace := namespace w1 |}.
Proof.
  intros H1 H2 En Ens Hk Hno.
  assert (C : forall w, In w W -> name w = name w1 ->
            namespace w = namespace w1 ->
            In (createAction w) (emitted (createVPAs vc kc s0))).
  { intros w Hw E1 E2. unfold createAction. apply In_createCalls.
    rewrite createVPAs_createCalls. apply in_map_iff. exists w.
    split; [reflexivity|]. apply In_toCreate. split; [assumption|].
    intros (v & Hv & E3 & E4). apply (Hno v Hv). split; congruence. }
  split; [apply C; auto|]. split; [apply C; auto|]. split; [|split].
  - intros E. unfold createAction in E.
    assert (E2 : ManagedVPASpec w1 = ManagedVPASpec w2) by congruence.
    apply ManagedVPASpec_inj in E2. congruence.
  - unfold ManagedVPASpec. simpl. now rewrite En, Ens.
  - unfold ManagedVPASpec. simpl. now rewrite En, Ens.
Qed.
End Snapshot.

(** ** The exemption is absolute *)

(** C5. A VPA whose name begins with "goldilocks" is never in [toDelete],
    and no run of the program, over any number of cycles and whatever the
    cluster answers, issues a [Delete] call for it. *)
Theorem goldilocks_never_deleted {St : Type} (vc : versioned_Clientset St)
    (kc : kubernetes_Clientset St) (s0 : St) (cycles : nat)
    (W : list WorkloadRef) (V : list VPA) (v : VPA) :
  String.prefix "goldilocks" (vName v) = true ->
  ~ In v (toDelete (Plan W V)) /\
  ~ In (deleteAction v) (emitted (createVPAs vc kc s0)) /\
  ~ In (deleteAction v) (emitted (mainLoop cycles vc kc s0)).
Proof.
  intros Hp. split; [|split].
  - rewrite In_toDelete. intros (_ & _ & Hf). congruence.
  - intros Hin.
    pose proof (createVPAs_sparesExempt vc kc s0) as HF.
    rewrite Forall_forall in HF. specialize (HF _ Hin). simpl in HF.
    congruence.
  - intros Hin.
    pose proof (mainLoop_sparesExempt vc kc cycles s0) as HF.
    rewrite Forall_forall in HF. specialize (HF _ Hin). simpl in HF.
    congruence.
Qed.

(** ** The name of the target reference *)

Lemma bind_ext {St A B : Type} (m1 m2 : Go St A) (f1 f2 : A -> Go St B)
    (s : St) :
  m1 s = m2 s -> (forall a s', f1 a s' = f2 a s') ->
  bind m1 f1 s = bind m2 f2 s.
Proof.
  intros Em Ef. unfold bind. rewrite Em.
  destruct (result (m2 s)); [|reflexivity]. now rewrite Ef.
Qed.

Lemma bind_call {St A B : Type} (f : St -> A * St) (evs : list event)
    (k : A -> Go St B) (s : St) :
  bind (call f evs) k s =
  mkOut (result (k (fst (f s)) (snd (f s))))
        (final (k (fst (f s)) (snd (f s))))
        (evs ++ emitted (k (fst (f s)) (snd (f s)))).
Proof. reflexivity. Qed.

Lemma range_ext {St A : Type} (b1 b2 : A -> Go St unit) (l : list A) :
  (forall x s, b1 x s = b2 x s) -> forall s, range l b1 s = range l b2 s.
Proof.
  intros E. induction l as [|x l IH]; intros s; simpl; [reflexivity|].
  apply bind_ext; auto.
Qed.

Lemma rangeReturning_map_ext {St A : Type} (g : A -> A)
    (b1 b2 : A -> Go St (option error)) (l : list A) :
  (forall x s, b1 (g x) s = b2 x s) ->
  forall s, rangeReturning (map g l) b1 s = rangeReturning l b2 s.
Proof.
  intros E. induction l as [|x l IH]; intros s; simpl; [reflexivity|].
  apply bind_ext; [apply E|]. intros [e|] s'; [reflexivity | apply IH].
Qed.

Lemma slices_ContainsFunc_map {A B : Type} (g : A -> B) (f : B -> res bool)
    (l : list A) :
  slices_ContainsFunc (map g l) f = slices_ContainsFunc l (fun x => f (g x)).
Proof. induction l as [|x l IH]; simpl; [reflexivity|]. now rewrite IH. Qed.

Lemma createVPA_retargeted {St T : Type} `{vpaTarget T} (target : T)
    (apiVersion k : string) (V : list VPA) (f : VPA -> string)
    (vc : versioned_Clientset St) (s : St) :
  createVPA target apiVersion k (map (fun v => retarget (f v) v) V)
    (retargeted f vc) s =
  createVPA target apiVersion k V vc s.
Proof.
  unfold createVPA. rewrite slices_ContainsFunc_map. reflexivity.
Qed.

Lemma targetKind_retarget (n : string) (v : VPA) :
  targetKind (retarget n v) = targetKind v.
Proof. unfold targetKind, retarget. simpl. now destruct (TargetRef (Spec v)). Qed.

Lemma filter_map_swap {A : Type} (g : A -> A) (p : A -> bool) (l : list A) :
  filter p (map g l) = map g (filter (fun x => p (g x)) l).
Proof.
  induction l as [|x l IH]; simpl; [reflexivity|].
  destruct (p (g x)); simpl; now rewrite IH.
Qed.

(** C9. Neither side of the matching reads the name in a VPA's target
    reference: a cluster that reports every VPA with that name changed makes
    the program run exactly as before (same calls, same log, same outcome),
    and the plan keeps its creates and deletes the same VPAs. *)
Theorem target_name_never_consulted {St : Type} (vc : versioned_Clientset St)
    (kc : kubernetes_Clientset St) (s0 : St) (f : VPA -> string)
    (W : list WorkloadRef) (V : list VPA) :
  createVPAs (retargeted f vc) kc s0 = createVPAs vc kc s0 /\
  toCreate (Plan W (map (fun v => retarget (f v) v) V)) = toCreate (Plan W V) /\
  toDelete (Plan W (map (fun v => retarget (f v) v) V)) =
    map (fun v => retarget (f v) v) (toDelete (Plan W V)).
Proof.
  split; [|split].
  - unfold createVPAs.
    apply bind_ext; [reflexivity|]. intros _ s.
    rewrite !bind_call.
    cbn [VerticalPodAutoscalers_List retargeted fst snd].
    destruct (fst (VerticalPodAutoscalers_List vc "" s)) as [vpas|e];
      [|reflexivity].
    match goal with
    | |- mkOut (result ?a) _ _ = mkOut (result ?b) _ _ =>
        assert (E : a = b); [|now rewrite E]
    end.
    apply bind_ext; [reflexivity|]. intros [deployments|e] s1; [|reflexivity].
    apply bind_ext;
      [apply range_ext; intros; apply createVPA_retargeted|]. intros _ s2.
    apply bind_ext; [reflexivity|]. intros [statefulSets|e] s3; [|reflexivity].
    apply bind_ext;
      [apply range_ext; intros; apply createVPA_retargeted|]. intros _ s4.
    apply bind_ext; [reflexivity|]. intros [daemonSets|e] s5; [|reflexivity].
    apply bind_ext;
      [apply range_ext; intros; apply createVPA_retargeted|]. intros _ s6.
    apply bind_ext; [|reflexivity].
    apply rangeReturning_map_ext. intros v s7.
    destruct v as [m [[t|] u]]; reflexivity.
  - simpl. apply filter_ext. intros w. f_equal. unfold hasVPA.
    now rewrite existsb_map'.
  - simpl. rewrite filter_map_swap. f_equal. apply filter_ext. intros v.
    unfold hasWorkload, exempt. now rewrite targetKind_retarget.
Qed.

(** The VPA "api" whose target reference names "other" stands for the
    Deployment "api" on both sides: no create, no delete. *)
Example vpa_matches_by_its_own_name :
  actions
    (emitted (createVPAs (fake.vpaClient [apiVPAForOther] fake.noFaults)
                (fake.k8sClient [apiDeployment] [] []) tt))
  = [] /\
  Plan (workloads [apiDeployment] [] []) [apiVPAForOther]
  = {| toCreate := []; toDelete := [] |}.
Proof. split; reflexivity. Qed.

(** ** No panic when every VPA has a target reference *)

Section NeverPanics.
Context {St : Type}.

Lemma neverPanics_ret {A : Type} (a : A) : neverPanics (ret (St := St) a).
Proof. intros s. discriminate. Qed.

Lemma neverPanics_eval {A : Type} (a : A) :
  neverPanics (eval (St := St) (Val a)).
Proof. intros s. discriminate. Qed.

Lemma neverPanics_slog lvl msg attrs :
  neverPanics (slog (St := St) lvl msg attrs).
Proof. intros s. discriminate. Qed.

Lemma neverPanics_call {A : Type} (f : St -> A * St) (evs : list event) :
  neverPanics (call f evs).
Proof. intros s. discriminate. Qed.

Lemma neverPanics_bind {A B : Type} (m : Go St A) (f : A -> Go St B) :
  neverPanics m -> (forall a, neverPanics (f a)) -> neverPanics (bind m f).
Proof.
  intros Hm Hf s. unfold bind. specialize (Hm s).
  destruct (result (m s)) as [a|]; [apply Hf | congruence].
Qed.

Lemma neverPanics_range {A : Type} (items : list A) (body : A -> Go St unit) :
  (forall x, neverPanics (body x)) -> neverPanics (range items body).
Proof.
  intros Hb. induction items as [|x t IH]; simpl.
  - apply neverPanics_ret.
  - apply neverPanics_bind; auto.
Qed.

Lemma neverPanics_rangeReturning {A : Type} (items : list A)
    (body : A -> Go St (option error)) :
  Forall (fun x => neverPanics (body x)) items ->
  neverPanics (rangeReturning items body).
Proof.
  induction 1 as [|x t Hx _ IH]; simpl.
  - apply neverPanics_ret.
  - apply neverPanics_bind; [exact Hx|].
    intros [e|]; [apply neverPanics_ret | exact IH].
Qed.

Lemma createVPA_neverPanics {T : Type} `{vpaTarget T} (target : T)
    (k : string) (V : list VPA) (vc : versioned_Clientset St) :
  neverPanics (createVPA target "apps/v1" k V vc).
Proof.
  intros s. destruct (createVPA_acts target k V vc s) as (s' & tr & E & _).
  rewrite E. discriminate.
Qed.
End NeverPanics.

(** One step of a proof that a statement never panics. *)
Ltac panics_step :=
  first
    [ apply createVPA_neverPanics
    | apply neverPanics_range; intros ?
    | apply neverPanics_bind; [|intros ?]
    | apply neverPanics_ret
    | apply neverPanics_eval
    | apply neverPanics_slog
    | apply neverPanics_call
    | match goal with
      | |- neverPanics (match ?x with _ => _ end) => destruct x eqn:?
      end ].

(** Whatever the cluster answers, a run panics only if the listing holds a
    VPA without target reference. *)
Lemma createVPAs_never_panics {St : Type} (vc : versioned_Clientset St)
    (kc : kubernetes_Clientset St) (s0 : St) :
  (forall V, fst (VerticalPodAutoscalers_List vc "" s0) = inl V ->
     Forall hasTargetRef V) ->
  result (createVPAs vc kc s0) <> Panic.
Proof.
  intros HT. unfold createVPAs.
  erewrite bind_val by reflexivity. rewrite bind_call. cbn [result].
  destruct (fst (VerticalPodAutoscalers_List vc "" s0)) as [vpas|e];
    [|discriminate].
  specialize (HT vpas eq_refl).
  match goal with |- result (?m ?s) <> Panic =>
    assert (N : neverPanics m); [|apply N] end.
  repeat panics_step.
  apply neverPanics_rangeReturning.
  eapply Forall_impl; [|exact HT]. intros v Hv.
  rewrite !deleteSide_test by exact Hv.
  unfold hasTargetRef in Hv.
  destruct (TargetRef (Spec v)) as [t|] eqn:ET; [|congruence].
  repeat panics_step.
Qed.

(** ** Where the program departs from the plan *)

(** C3. A VPA without target reference makes the program panic: in the
    delete-side test when a Deployment has its name and namespace, and
    otherwise right after the [Delete] call, when the log line reads the
    kind.  The panic is not recovered, so the loop of [main] ends with it. *)
Theorem absent_target_ref_panics :
  result (createVPAs bareClient (fake.k8sClient [apiDeployment] [] []) tt)
    = Panic /\
  result (mainLoop 1 bareClient (fake.k8sClient [apiDeployment] [] []) tt)
    = Panic /\
  result (createVPAs bareClient (fake.k8sClient [] [] []) tt) = Panic /\
  deleteCalls (emitted (createVPAs bareClient (fake.k8sClient [] [] []) tt))
    = [("ns", "api")] /\
  toDelete (Plan (workloads [] [] []) [mkBareVPA "api" "ns"])
    = [mkBareVPA "api" "ns"].
Proof. vm_compute. repeat split. Qed.

(** C4. A failed [Delete] call ends the run: the VPAs after it in the
    listing are not deleted in that cycle, and [createVPAs] returns the
    error, which [main] logs before it sleeps; a failed [Create] call, in
    contrast, is logged on the spot and the run goes on. *)
Theorem delete_failure_stops_remaining_deletes :
  map deleteAction
    (toDelete (Plan (workloads [webDeployment; mkDeployment "api" "default"]
                       [] []) [old1VPA; old2VPA]))
    = [Delete "default" "old1"; Delete "default" "old2"] /\
  result refusedDelete = Val (Some "forbidden") /\
  deleteCalls (emitted refusedDelete) = [("default", "old1")] /\
  result refusedDeleteCycle = Val tt /\
  deleteCalls (emitted refusedDeleteCycle) = [("default", "old1")] /\
  In (Slog Error "failed creating vpas" [("error", "forbidden")])
     (emitted refusedDeleteCycle) /\
  result refusedCreate = Val None /\
  map fst (createCalls (emitted refusedCreate)) = ["default"; "default"] /\
  deleteCalls (emitted refusedCreate)
    = [("default", "old1"); ("default", "old2")] /\
  In (Slog Warn "failed to create vpa"
        [("error", "forbidden"); ("name", "web"); ("namespace", "default")])
     (emitted refusedCreate).
Proof. vm_compute. repeat split; auto 20. Qed.

(** ** The scenarios of the specification *)

(** Kind-insensitive creation: the same VPA keeps the Deployment "api" from
    getting one of its own. *)
Lemma create_iff_no_vpa_of_name_witness :
  createCalls
    (emitted (createVPAs (fake.vpaClient [apiVPA] fake.noFaults)
                (fake.k8sClient [apiDeployment] [] []) tt))
  = [].
Proof.
  refine (proj1 (@create_iff_no_vpa_of_name unit
            (fake.vpaClient [apiVPA] fake.noFaults)
            (fake.k8sClient [apiDeployment] [] [])
            [apiDeployment] [] [] [apiVPA] tt _ _ _ _)).
  - reflexivity.
  - intros s; reflexivity.
  - intros s; reflexivity.
  - intros s; reflexivity.
Defined.

(** The VPA created for the StatefulSet "db". *)
Lemma created_vpa_has_managed_shape_witness :
  exists w,
    In w (workloads [webDeployment] [dbStatefulSet] []) /\
    "default" = namespace w /\
    "db" = name w /\
    "default" = namespace w /\
    Some {| autoscalingv1.APIVersion := "apps/v1";
            autoscalingv1.Kind := "StatefulSet";
            autoscalingv1.Name := "db" |} =
      Some {| autoscalingv1.APIVersion := "apps/v1";
              autoscalingv1.Kind := kind w;
              autoscalingv1.Name := name w |} /\
    Some {| PodUpdatePolicy_UpdateMode := Some "Off" |} =
      Some {| PodUpdatePolicy_UpdateMode := Some "Off" |}.
Proof.
  refine (@created_vpa_has_managed_shape unit
            (fake.vpaClient [oldVPA] fake.noFaults)
            (fake.k8sClient [webDeployment] [dbStatefulSet] [])
            [webDeployment] [dbStatefulSet] [] [oldVPA] tt _ _ _ _
            "default" (ManagedVPASpec (refOf "StatefulSet" dbStatefulSet)) _).
  - reflexivity.
  - intros s; reflexivity.
  - intros s; reflexivity.
  - intros s; reflexivity.
  - vm_compute. auto 10.
Defined.

(** A Deployment and a StatefulSet both called "api", on a cluster that
    refuses the second object of a name: both creates are issued. *)
Lemma same_name_workloads_both_created_witness :
  In (createAction (refOf "Deployment" apiDeployment))
     (emitted (kube.pass [apiDeployment] [apiStatefulSet] [] [])) /\
  In (createAction (refOf "StatefulSet" apiStatefulSet))
     (emitted (kube.pass [apiDeployment] [apiStatefulSet] [] [])) /\
  final (kube.pass [apiDeployment] [apiStatefulSet] [] [])
    = [ManagedVPASpec (refOf "Deployment" apiDeployment)].
Proof.
  pose proof (@same_name_workloads_both_created (list VPA)
            kube.vpaClient (kube.k8sClient [apiDeployment] [apiStatefulSet] [])
            [apiDeployment] [apiStatefulSet] [] [] []
            eq_refl (fun _ => eq_refl) (fun _ => eq_refl) (fun _ => eq_refl)
            (refOf "Deployment" apiDeployment)
            (refOf "StatefulSet" apiStatefulSet)) as H.
  split; [|split; [|reflexivity]]; apply H; simpl; auto;
    try discriminate; intros v [].
Defined.

(** The VPA "goldilocks-web" has no workload of its name and is left alone,
    cycle after cycle. *)
Lemma goldilocks_never_deleted_witness :
  ~ In goldilocksVPA
      (toDelete (Plan (workloads [webDeployment] [] []) [goldilocksVPA])) /\
  ~ In (deleteAction goldilocksVPA)
      (emitted (createVPAs (fake.vpaClient [goldilocksVPA] fake.noFaults)
                  (fake.k8sClient [webDeployment] [] []) tt)) /\
  ~ In (deleteAction goldilocksVPA)
      (emitted (mainLoop 3 (fake.vpaClient [goldilocksVPA] fake.noFaults)
                  (fake.k8sClient [webDeployment] [] []) tt)).
Proof.
  apply (@goldilocks_never_deleted unit
           (fake.vpaClient [goldilocksVPA] fake.noFaults)
           (fake.k8sClient [webDeployment] [] []) tt 3
           (workloads [webDeployment] [] []) [goldilocksVPA] goldilocksVPA).
  reflexivity.
Defined.

(** ** Loops that change the cluster *)

Lemma range_steps {St A : Type} (body : A -> Go St unit)
    (act : A -> list event) (step : A -> St -> St) (items : list A) :
  (forall x s, exists tr,
     body x s = mkOut (Val tt) (step x s) tr /\ actions tr = act x) ->
  forall s, exists tr,
    range items body s
      = mkOut (Val tt) (fold_left (fun s x => step x s) items s) tr /\
    actions tr = flat_map act items.
Proof.
  intros Hb. induction items as [|x t IH]; intros s; simpl.
  - exists []. split; reflexivity.
  - destruct (Hb x s) as (tr1 & E1 & A1).
    destruct (IH (step x s)) as (tr2 & E2 & A2).
    exists (tr1 ++ tr2). erewrite bind_val by exact E1. rewrite E2. simpl.
    split; [reflexivity|]. now rewrite actions_app, A1, A2.
Qed.

Lemma rangeReturning_steps {St A : Type} (body : A -> Go St (option error))
    (act : A -> list event) (step : A -> St -> St)
    (I : list A -> St -> Prop) :
  (forall x t s, I (x :: t) s ->
     (exists tr, body x s = mkOut (Val None) (step x s) tr /\
                 actions tr = act x) /\
     I t (step x s)) ->
  forall items s, I items s ->
    exists tr,
      rangeReturning items body s
        = mkOut (Val None) (fold_left (fun s x => step x s) items s) tr /\
      actions tr = flat_map act items.
Proof.
  intros Hb. induction items as [|x t IH]; intros s HI; simpl.
  - exists []. split; reflexivity.
  - destruct (Hb x t s HI) as ((tr1 & E1 & A1) & HI').
    destruct (IH (step x s) HI') as (tr2 & E2 & A2).
    exists (tr1 ++ tr2). erewrite bind_val by exact E1. cbv beta iota.
    rewrite E2. simpl.
    split; [reflexivity|]. now rewrite actions_app, A1, A2.
Qed.

Lemma fold_left_map' {A B C : Type} (f : C -> B -> C) (g : A -> B)
    (l : list A) (c : C) :
  fold_left f (map g l) c = fold_left (fun c x => f c (g x)) l c.
Proof.
  revert c. induction l as [|x l IH]; intros c; simpl; [reflexivity|].
  apply IH.
Qed.

(** ** A pass over the modelled cluster *)

Lemma kube_list_all (s : list VPA) : filter (kube.inNamespace "") s = s.
Proof.
  induction s as [|v s IH]; simpl; [reflexivity|]. now rewrite IH.
Qed.

Lemma kube_createVPA {T : Type} `{vpaTarget T} (target : T) (k : string)
    (V s : list VPA) :
  exists tr,
    createVPA target "apps/v1" k V kube.vpaClient s
      = mkOut (Val tt) (kube.afterCreate V (refOf k target) s) tr /\
    actions tr =
      if negb (hasVPA V (refOf k target))
      then [createAction (refOf k target)] else [].
Proof.
  unfold createVPA. rewrite ContainsFunc_Val, (createVPA_test k).
  unfold kube.afterCreate, bind, eval, call, slog, ret. simpl.
  destruct (hasVPA V (refOf k target)); simpl.
  - eauto.
  - unfold vNamespace, vName. simpl. rewrite String.eqb_refl. simpl.
    destruct (existsb _ s); simpl; eexists; split; reflexivity.
Qed.

Lemma kube_range_createVPA {T : Type} `{vpaTarget T} (items : list T)
    (k : string) (V s : list VPA) :
  exists tr,
    range items (fun d => createVPA d "apps/v1" k V kube.vpaClient) s
      = mkOut (Val tt) (kube.afterCreates V (map (refOf k) items) s) tr /\
    actions tr =
      map createAction
        (filter (fun w => negb (hasVPA V w)) (map (refOf k) items)).
Proof.
  destruct (range_steps (fun d => createVPA d "apps/v1" k V kube.vpaClient)
              (fun d => if negb (hasVPA V (refOf k d))
                        then [createAction (refOf k d)] else [])
              (fun d s => kube.afterCreate V (refOf k d) s)
              items (fun x s' => kube_createVPA x k V s') s)
    as (tr & E & A).
  exists tr. unfold kube.afterCreates. rewrite fold_left_map'.
  split; [exact E|]. rewrite A.
  rewrite (flat_map_filter (fun d => negb (hasVPA V (refOf k d)))
             (fun d => createAction (refOf k d))).
  clear. induction items as [|x t IH]; simpl; [reflexivity|].
  destruct (negb (hasVPA V (refOf k x))); simpl; now rewrite IH.
Qed.

Lemma sameKey_key (v x : VPA) :
  kube.sameKey (vNamespace v) (vName v) x = true <-> kube.key x = kube.key v.
Proof.
  unfold kube.sameKey, kube.key. rewrite andb_true_iff, !String.eqb_eq.
  split; [intros [-> ->]; reflexivity | intros E; inversion E; auto].
Qed.

Lemma sameKey_self (v : VPA) : kube.sameKey (vNamespace v) (vName v) v = true.
Proof. now apply sameKey_key. Qed.

(** What the delete loop relies on: target references, distinct objects,
    and every VPA it will delete still in the cluster. *)
Lemma kube_delete_step (W : list WorkloadRef) (v : VPA) (t : list VPA)
    (s : list VPA) :
  NoDup (map kube.key (v :: t)) ->
  (forall x, In x (v :: t) ->
     negb (hasWorkload W x) && negb (exempt x) = true ->
     existsb (kube.sameKey (vNamespace x) (vName x)) s = true) ->
  forall x, In x t ->
    negb (hasWorkload W x) && negb (exempt x) = true ->
    existsb (kube.sameKey (vNamespace x) (vName x))
      (kube.afterDelete W v s) = true.
Proof.
  intros ND Hex x Hx Hd. specialize (Hex x (or_intror Hx) Hd).
  unfold kube.afterDelete.
  destruct (negb (hasWorkload W v) && negb (exempt v)); [|exact Hex].
  apply existsb_exists in Hex. destruct Hex as (y & Hy & Hk).
  apply existsb_exists. exists y. split; [|exact Hk].
  apply filter_In. split; [exact Hy|].
  destruct (kube.sameKey (vNamespace v) (vName v) y) eqn:E; [|reflexivity].
  exfalso. apply sameKey_key in E, Hk.
  simpl in ND. inversion ND as [|? ? Hnin _]; subst. apply Hnin.
  rewrite <- E, Hk. now apply in_map.
Qed.

Lemma afterCreates_grows (V : list VPA) (W : list WorkloadRef) (s : list VPA) :
  exists C,
    kube.afterCreates V W s = s ++ C /\
    forall c, In c C ->
      exists w, In w W /\ c = ManagedVPASpec w /\ hasVPA V w = false.
Proof.
  unfold kube.afterCreates. revert s.
  induction W as [|w W IH]; intros s; simpl.
  - exists []. split; [now rewrite app_nil_r | intros c []].
  - destruct (IH (kube.afterCreate V w s)) as (C & E & HC).
    rewrite E. unfold kube.afterCreate.
    destruct (hasVPA V w) eqn:Hh; simpl.
    + exists C. split; [reflexivity|].
      intros c Hc. destruct (HC c Hc) as (w' & Hw' & Ec & Hn). eauto.
    + destruct (existsb _ s); simpl.
      * exists C. split; [reflexivity|].
        intros c Hc. destruct (HC c Hc) as (w' & Hw' & Ec & Hn). eauto.
      * exists (ManagedVPASpec w :: C). split; [now rewrite <- app_assoc|].
        intros c [Hc|Hc]; [subst c; eauto|].
        destruct (HC c Hc) as (w' & Hw' & Ec & Hn). eauto.
Qed.

Lemma afterCreates_app (V : list VPA) (W1 W2 : list WorkloadRef)
    (s : list VPA) :
  kube.afterCreates V (W1 ++ W2) s =
  kube.afterCreates V W2 (kube.afterCreates V W1 s).
Proof. unfold kube.afterCreates. apply fold_left_app. Qed.

(** One pass: it succeeds, makes the calls of the plan, and leaves the
    cluster in the state the two folds compute. *)
Lemma kube_pass (D : list Deployment) (S : list StatefulSet)
    (Dm : list DaemonSet) (V : list VPA) :
  Forall hasTargetRef V ->
  NoDup (map kube.key V) ->
  result (kube.pass D S Dm V) = Val None /\
  final (kube.pass D S Dm V) =
    kube.afterDeletes (workloads D S Dm) V
      (kube.afterCreates V (workloads D S Dm) V) /\
  actions (emitted (kube.pass D S Dm V)) =
    map createAction (toCreate (Plan (workloads D S Dm) V)) ++
    map deleteAction (toDelete (Plan (workloads D S Dm) V)).
Proof.
  intros HT ND. unfold kube.pass, createVPAs.
  erewrite bind_val by reflexivity.
  rewrite bind_call. cbn [kube.vpaClient VerticalPodAutoscalers_List fst snd].
  rewrite kube_list_all.
  rewrite bind_call. cbn [kube.k8sClient Deployments_List fst snd].
  destruct (kube_range_createVPA D "Deployment" V V) as (tr1 & E1 & A1).
  erewrite bind_val by exact E1. cbn [result final emitted].
  rewrite bind_call. cbn [kube.k8sClient StatefulSets_List fst snd].
  match goal with |- context [bind (range S _) _ ?s] =>
    destruct (kube_range_createVPA S "StatefulSet" V s) as (tr2 & E2 & A2) end.
  erewrite bind_val by exact E2. cbn [result final emitted].
  rewrite bind_call. cbn [kube.k8sClient DaemonSets_List fst snd].
  match goal with |- context [bind (range Dm _) _ ?s] =>
    destruct (kube_range_createVPA Dm "DaemonSet" V s) as (tr3 & E3 & A3) end.
  erewrite bind_val by exact E3. cbn [result final emitted].
  rewrite <- !afterCreates_app.
  change (map (refOf "Deployment") D ++ map (refOf "StatefulSet") S
            ++ map (refOf "DaemonSet") Dm) with (workloads D S Dm).
  set (W := workloads D S Dm).
  set (s3 := kube.afterCreates V W V).
  match goal with |- context [bind (rangeReturning V ?b) _ _] =>
    destruct (rangeReturning_steps b
                (fun v => if negb (hasWorkload W v) && negb (exempt v)
                          then [deleteAction v] else [])
                (fun v s => kube.afterDelete W v s)
                (fun l s =>
                   Forall hasTargetRef l /\ NoDup (map kube.key l) /\
                   forall x, In x l ->
                     negb (hasWorkload W x) && negb (exempt x) = true ->
                     existsb (kube.sameKey (vNamespace x) (vName x)) s = true))
      with (items := V) (s := s3) as (tr4 & E4 & A4)
  end.
  { intros v t s (HTv & NDv & Hex). split.
    - assert (Hv : hasTargetRef v) by (inversion HTv; assumption).
      rewrite !deleteSide_test by exact Hv.
      specialize (Hex v (or_introl eq_refl)). revert Hex.
      unfold kube.afterDelete. subst W. rewrite hasWorkload_workloads.
      unfold exempt, strings_HasPrefix. cbn [GetName GetNamespace
        Deployment_vpaTarget StatefulSet_vpaTarget DaemonSet_vpaTarget].
      unfold bind at 1. unfold eval at 1. cbn [result final emitted].
      destruct (existsb _ D); cbn [orb negb andb].
      { intros _. exists []. split; reflexivity. }
      unfold bind at 1. unfold eval at 1. cbn [result final emitted].
      destruct (existsb _ S); cbn [orb negb andb].
      { intros _. exists []. split; reflexivity. }
      unfold bind at 1. unfold eval at 1. cbn [result final emitted].
      destruct (existsb _ Dm); cbn [orb negb andb].
      { intros _. exists []. split; reflexivity. }
      destruct (String.prefix "goldilocks" (vName v)); cbn [negb].
      { intros _. exists []. split; reflexivity. }
      intros Hex. specialize (Hex eq_refl).
      unfold bind, call, eval, slog, ret.
      cbn [kube.vpaClient VerticalPodAutoscalers_Delete result final emitted].
      rewrite Hex. unfold hasTargetRef in Hv.
      destruct (TargetRef (Spec v)) as [r|]; [|congruence].
      cbn [deref fst snd result final emitted].
      eexists; split; reflexivity.
    - split; [inversion HTv; assumption|]. split.
      + simpl in NDv. inversion NDv; assumption.
      + apply kube_delete_step; assumption. }
  { split; [exact HT|]. split; [exact ND|].
    intros x Hx _. subst s3.
    destruct (afterCreates_grows V W V) as (C & EC & _). rewrite EC.
    rewrite existsb_app. apply orb_true_iff. left.
    apply existsb_exists. exists x. split; [exact Hx | apply sameKey_self]. }
  erewrite bind_val by exact E4. cbn [result final emitted].
  split; [reflexivity|]. split; [reflexivity|].
  rewrite !actions_app, A1, A2, A3, A4. simpl.
  rewrite (flat_map_filter
             (fun v => negb (hasWorkload W v) && negb (exempt v))
             deleteAction).
  subst W. unfold workloads.
  now rewrite !filter_app, !map_app, <- !app_assoc, app_nil_r.
Qed.

Lemma In_afterDeletes (W : list WorkloadRef) (l s : list VPA) (x : VPA) :
  In x (kube.afterDeletes W l s) <->
  In x s /\
  forall v, In v l ->
    negb (hasWorkload W v) && negb (exempt v) = true ->
    kube.sameKey (vNamespace v) (vName v) x = false.
Proof.
  unfold kube.afterDeletes. revert s.
  induction l as [|v l IH]; intros s; simpl.
  - split; [intros H; split; [exact H | intros v []] | tauto].
  - rewrite IH. unfold kube.afterDelete.
    destruct (negb (hasWorkload W v) && negb (exempt v)) eqn:Hd.
    + rewrite filter_In, negb_true_iff. split.
      * intros [[Hx Hk] Hl]. split; [exact Hx|].
        intros v' [<-|Hv'] Hd'; auto.
      * intros [Hx Hl]. split; [split; [exact Hx | auto] | auto].
    + split.
      * intros [Hx Hl]. split; [exact Hx|].
        intros v' [<-|Hv'] Hd'; [congruence | auto].
      * intros [Hx Hl]. split; [exact Hx | auto].
Qed.

Lemma afterCreates_covers (V : list VPA) (W : list WorkloadRef)
    (s : list VPA) (w : WorkloadRef) :
  In w W -> hasVPA V w = false ->
  existsb (kube.sameKey (namespace w) (name w)) (kube.afterCreates V W s) = true.
Proof.
  revert s. induction W as [|w' W IH]; intros s Hin Hn; [destruct Hin|].
  change (kube.afterCreates V (w' :: W) s)
    with (kube.afterCreates V W (kube.afterCreate V w' s)).
  destruct Hin as [->|Hin]; [|now apply IH].
  destruct (afterCreates_grows V W (kube.afterCreate V w s)) as (C & E & _).
  rewrite E, existsb_app. apply orb_true_iff. left.
  unfold kube.afterCreate. rewrite Hn. simpl.
  destruct (existsb _ s) eqn:Ex; [exact Ex|].
  rewrite existsb_app. apply orb_true_iff. right. simpl.
  unfold kube.sameKey, vNamespace, vName. simpl.
  now rewrite !String.eqb_refl.
Qed.

Lemma hasWorkload_managed (W : list WorkloadRef) (w : WorkloadRef) :
  In w W -> hasWorkload W (ManagedVPASpec w) = true.
Proof. intros Hin. apply hasWorkload_spec. exists w. auto. Qed.

Lemma filter_nil_iff {A : Type} (p : A -> bool) (l : list A) :
  (forall x, In x l -> p x = false) -> filter p l = [].
Proof.
  induction l as [|x l IH]; intros H; simpl; [reflexivity|].
  rewrite (H x (or_introl eq_refl)). apply IH. intros y Hy. apply H. now right.
Qed.

(** What the cluster holds after a pass: VPAs of the snapshot that the
    plan keeps, and managed VPAs of listed workloads. *)
Lemma after_pass_members (W : list WorkloadRef) (V : list VPA) (x : VPA) :
  In x (kube.afterDeletes W V (kube.afterCreates V W V)) ->
  (In x V /\ negb (hasWorkload W x) && negb (exempt x) = false) \/
  (exists w, In w W /\ x = ManagedVPASpec w).
Proof.
  intros Hx. apply In_afterDeletes in Hx. destruct Hx as [Hs Hk].
  destruct (afterCreates_grows V W V) as (C & E & HC). rewrite E in Hs.
  apply in_app_or in Hs. destruct Hs as [Hv|Hc].
  - left. split; [exact Hv|].
    destruct (negb (hasWorkload W x) && negb (exempt x)) eqn:Hd; [|reflexivity].
    specialize (Hk x Hv Hd). now rewrite sameKey_self in Hk.
  - right. destruct (HC x Hc) as (w & Hw & Ex & _). eauto.
Qed.

Lemma after_pass_no_delete (W : list WorkloadRef) (V : list VPA) :
  toDelete (Plan W (kube.afterDeletes W V (kube.afterCreates V W V))) = [].
Proof.
  simpl. apply filter_nil_iff. intros x Hx.
  destruct (after_pass_members W V x Hx) as [[_ Hd]|(w & Hw & ->)];
    [exact Hd|].
  now rewrite (hasWorkload_managed W w Hw).
Qed.

Lemma after_pass_hasTargetRef (W : list WorkloadRef) (V : list VPA) :
  Forall hasTargetRef V ->
  Forall hasTargetRef (kube.afterDeletes W V (kube.afterCreates V W V)).
Proof.
  intros HT. apply Forall_forall. intros x Hx.
  destruct (after_pass_members W V x Hx) as [[Hv _]|(w & Hw & ->)].
  - rewrite Forall_forall in HT. auto.
  - discriminate.
Qed.

Lemma after_pass_no_create (W : list WorkloadRef) (V : list VPA) :
  (forall v, In v (toDelete (Plan W V)) ->
     ~ exists w, In w W /\ name w = vName v /\ namespace w = vNamespace v) ->
  toCreate (Plan W (kube.afterDeletes W V (kube.afterCreates V W V))) = [].
Proof.
  intros Hcond. simpl. apply filter_nil_iff. intros w Hw.
  apply negb_false_iff.
  assert (Hkeep : forall x, kube.sameKey (namespace w) (name w) x = true ->
            forall v, In v V ->
              negb (hasWorkload W v) && negb (exempt v) = true ->
              kube.sameKey (vNamespace v) (vName v) x = false).
  { intros x Hk v Hv Hd.
    destruct (kube.sameKey (vNamespace v) (vName v) x) eqn:E; [|reflexivity].
    exfalso. apply (Hcond v); [simpl; apply filter_In; auto|].
    exists w. split; [exact Hw|].
    unfold kube.sameKey in Hk, E. apply andb_true_iff in Hk, E.
    destruct Hk as [K1 K2], E as [E1 E2].
    apply String.eqb_eq in K1, K2, E1, E2. split; congruence. }
  assert (Hex : existsb (kube.sameKey (namespace w) (name w))
                  (kube.afterCreates V W V) = true).
  { destruct (hasVPA V w) eqn:Hh; [|now apply afterCreates_covers].
    apply hasVPA_spec in Hh. destruct Hh as (v & Hv & E1 & E2).
    destruct (afterCreates_grows V W V) as (C & E & _).
    rewrite E, existsb_app. apply orb_true_iff. left.
    apply existsb_exists. exists v. split; [exact Hv|].
    unfold kube.sameKey. now rewrite E1, E2, !String.eqb_refl. }
  apply existsb_exists in Hex. destruct Hex as (x & Hx & Hk).
  apply hasVPA_spec. exists x. split.
  - apply In_afterDeletes. split; [exact Hx | now apply Hkeep].
  - unfold kube.sameKey in Hk. apply andb_true_iff in Hk.
    destruct Hk as [K1 K2]. apply String.eqb_eq in K1, K2. auto.
Qed.

(** The identities stay distinct. *)
Lemma NoDup_keys_filter (p : VPA -> bool) (s : list VPA) :
  NoDup (map kube.key s) -> NoDup (map kube.key (filter p s)).
Proof.
  induction s as [|x s IH]; simpl; intros ND; [constructor|].
  inversion ND as [|? ? Hn ND']; subst.
  destruct (p x); simpl; [|auto]. constructor; [|auto].
  intros Hin. apply Hn. apply in_map_iff in Hin.
  destruct Hin as (y & Ey & Hy). apply filter_In in Hy.
  apply in_map_iff. exists y. tauto.
Qed.

Lemma after_pass_NoDup (W : list WorkloadRef) (V : list VPA) :
  NoDup (map kube.key V) ->
  NoDup (map kube.key (kube.afterDeletes W V (kube.afterCreates V W V))).
Proof.
  intros ND.
  assert (HC : forall W' s, NoDup (map kube.key s) ->
            NoDup (map kube.key (kube.afterCreates V W' s))).
  { unfold kube.afterCreates.
    induction W' as [|w W' IH]; intros s Hs; simpl; [exact Hs|].
    apply IH. unfold kube.afterCreate.
    destruct (hasVPA V w); simpl; [exact Hs|].
    destruct (existsb _ s) eqn:Ex; [exact Hs|].
    rewrite map_app. apply NoDup_app; [exact Hs | repeat constructor; simpl; tauto |].
    intros k Hk [<-|[]]. apply in_map_iff in Hk. destruct Hk as (y & Ey & Hy).
    assert (Et : existsb (kube.sameKey (namespace w) (name w)) s = true).
    { apply existsb_exists. exists y. split; [exact Hy|].
      apply (proj2 (sameKey_key (ManagedVPASpec w) y)). exact Ey. }
    congruence. }
  assert (HD : forall l s, NoDup (map kube.key s) ->
            NoDup (map kube.key (kube.afterDeletes W l s))).
  { unfold kube.afterDeletes.
    induction l as [|v l IH]; intros s Hs; simpl; [exact Hs|].
    apply IH. unfold kube.afterDelete.
    destruct (negb (hasWorkload W v) && negb (exempt v)); [|exact Hs].
    now apply NoDup_keys_filter. }
  apply HD, HC, ND.
Qed.

(** A pass and the plan on the cluster it leaves. *)
Lemma pass_then_plan (D : list Deployment) (S : list StatefulSet)
    (Dm : list DaemonSet) (V : list VPA) :
  Forall hasTargetRef V ->
  NoDup (map kube.key V) ->
  let W := workloads D S Dm in
  let V' := final (kube.pass D S Dm V) in
  result (kube.pass D S Dm V) = Val None /\
  actions (emitted (kube.pass D S Dm V)) =
    map createAction (toCreate (Plan W V)) ++
    map deleteAction (toDelete (Plan W V)) /\
  Forall hasTargetRef V' /\
  NoDup (map kube.key V') /\
  toDelete (Plan W V') = [] /\
  ((forall v, In v (toDelete (Plan W V)) ->
      ~ exists w, In w W /\ name w = vName v /\ namespace w = vNamespace v) ->
   toCreate (Plan W V') = []).
Proof.
  intros HT ND W V'.
  destruct (kube_pass D S Dm HT ND) as (R1 & F1 & A1).
  fold W in F1, A1. subst V'. rewrite F1.
  split; [exact R1|]. split; [exact A1|].
  split; [now apply after_pass_hasTargetRef|].
  split; [now apply after_pass_NoDup|].
  split; [apply after_pass_no_delete|].
  intros Hcond. now apply after_pass_no_create.
Qed.

(** ** Convergence *)

(** C6, as the program has it.  A pass over a cluster whose VPAs have
    target references and distinct identities succeeds and makes the calls
    of the plan, a function of the two snapshots.  On the cluster it
    leaves, the plan deletes nothing; when no VPA deleted by the pass had
    the name and namespace of a workload, the plan creates nothing either
    and the next pass makes no call at all; and in any case the plan is
    empty after the next pass. *)
Theorem second_pass_fixed_point (D : list Deployment) (S : list StatefulSet)
    (Dm : list DaemonSet) (V : list VPA) :
  Forall hasTargetRef V ->
  NoDup (map kube.key V) ->
  let W := workloads D S Dm in
  let V' := final (kube.pass D S Dm V) in
  let V'' := final (kube.pass D S Dm V') in
  result (kube.pass D S Dm V) = Val None /\
  actions (emitted (kube.pass D S Dm V)) =
    map createAction (toCreate (Plan W V)) ++
    map deleteAction (toDelete (Plan W V)) /\
  toDelete (Plan W V') = [] /\
  ((forall v, In v (toDelete (Plan W V)) ->
      ~ exists w, In w W /\ name w = vName v /\ namespace w = vNamespace v) ->
   toCreate (Plan W V') = [] /\
   actions (emitted (kube.pass D S Dm V')) = []) /\
  result (kube.pass D S Dm V') = Val None /\
  deleteCalls (emitted (kube.pass D S Dm V')) = [] /\
  toCreate (Plan W V'') = [] /\
  toDelete (Plan W V'') = [].
Proof.
  intros HT ND W V' V''.
  destruct (pass_then_plan D S Dm HT ND) as (R1 & A1 & HT' & ND' & HD' & HC').
  fold W in A1, HD', HC'. fold V' in HT', ND', HD', HC'.
  destruct (pass_then_plan D S Dm HT' ND') as (R2 & A2 & _ & _ & HD'' & HC'').
  fold W in A2, HD'', HC''. fold V'' in HD'', HC''.
  rewrite HD' in A2, HC''. cbn [map] in A2. rewrite app_nil_r in A2.
  split; [exact R1|]. split; [exact A1|]. split; [exact HD'|].
  split; [|split; [exact R2|split; [|split; [|exact HD'']]]].
  - intros Hcond. specialize (HC' Hcond). split; [exact HC'|].
    now rewrite A2, HC'.
  - now rewrite <- deleteCalls_actions, A2, deleteCalls_createActions.
  - apply HC''. intros v [].
Qed.

(** The hypotheses hold, and the condition on the deleted VPAs too, in the
    end-to-end scenario: after the pass that creates "web" and "db" and
    deletes "old", nothing is left to do. *)
Lemma second_pass_fixed_point_witness :
  webAfterPass
    = [ManagedVPASpec (refOf "Deployment" webDeployment);
       ManagedVPASpec (refOf "StatefulSet" dbStatefulSet)] /\
  toDelete (Plan (workloads [webDeployment] [dbStatefulSet] []) webAfterPass)
    = [] /\
  toCreate (Plan (workloads [webDeployment] [dbStatefulSet] []) webAfterPass)
    = [] /\
  actions (emitted (kube.pass [webDeployment] [dbStatefulSet] [] webAfterPass))
    = [].
Proof.
  assert (HT : Forall hasTargetRef [oldVPA])
    by (apply Forall_cons; [discriminate | apply Forall_nil]).
  assert (ND : NoDup (map kube.key [oldVPA]))
    by (apply NoDup_cons; [simpl; tauto | apply NoDup_nil]).
  pose proof (@second_pass_fixed_point [webDeployment] [dbStatefulSet] []
                [oldVPA] HT ND) as H.
  cbv zeta in H. destruct H as (_ & _ & H3 & H4 & _).
  split; [reflexivity|]. split; [exact H3|].
  apply H4. intros v Hv (w & Hw & E1 & E2).
  simpl in Hv. destruct Hv as [<-|[]].
  simpl in Hw. destruct Hw as [<-|[<-|[]]]; discriminate.
Defined.

(** C6 as stated fails: the Deployment "api" and the VPA "api" that
    targets a StatefulSet.  The first pass creates nothing (the name is
    taken) and deletes the VPA (the kind differs); on the cluster it
    leaves, the plan is not empty and the next pass creates a VPA. *)
Lemma one_pass_not_fixed_point :
  result (kube.pass [apiDeployment] [] [] [apiVPA]) = Val None /\
  actions (emitted (kube.pass [apiDeployment] [] [] [apiVPA]))
    = [deleteAction apiVPA] /\
  apiAfterPass = [] /\
  ~ (toCreate (Plan (workloads [apiDeployment] [] []) apiAfterPass) = [] /\
     toDelete (Plan (workloads [apiDeployment] [] []) apiAfterPass) = []) /\
  actions (emitted (kube.pass [apiDeployment] [] [] apiAfterPass))
    = [createAction (refOf "Deployment" apiDeployment)].
Proof.
  vm_compute. repeat split. intros [H _]. discriminate H.
Qed.

(** * More of the program *)

(** ** Listings that fail *)

Lemma result_bind {St A B : Type} (m : Go St A) (f : A -> Go St B) (s : St) :
  result (bind m f s) =
  match result (m s) with
  | Val a => result (f a (final (m s)))
  | Panic => Panic
  end.
Proof. unfold bind. destruct (result (m s)); reflexivity. Qed.

(** When the listing of the VPAs fails, the run returns the error under
    the message of that listing, has made no [Create] and no [Delete] call,
    and has asked the cluster nothing else. *)
Theorem vpa_listing_failure_changes_nothing {St : Type}
    (vc : versioned_Clientset St) (kc : kubernetes_Clientset St) (s0 : St)
    (e : error) :
  fst (VerticalPodAutoscalers_List vc "" s0) = inr e ->
  result (createVPAs vc kc s0) =
    Val (Some (Errorf "failed to fetch VerticalPodAutoscalers: " e)) /\
  actions (emitted (createVPAs vc kc s0)) = [] /\
  final (createVPAs vc kc s0) = snd (VerticalPodAutoscalers_List vc "" s0).
Proof.
  intros H. unfold createVPAs.
  erewrite bind_val by reflexivity. rewrite bind_call, H.
  repeat split.
Qed.

(** A cluster whose VPA listing is refused. *)
Lemma vpa_listing_failure_changes_nothing_witness :
  result (createVPAs (stub.vpaClient (inr "unauthorized") fake.noFaults)
            (stub.k8sClient (inl [webDeployment]) (inl []) (inl [])) tt)
  = Val (Some "failed to fetch VerticalPodAutoscalers: unauthorized").
Proof.
  refine (proj1 (@vpa_listing_failure_changes_nothing unit
            (stub.vpaClient (inr "unauthorized") fake.noFaults)
            (stub.k8sClient (inl [webDeployment]) (inl []) (inl [])) tt
            "unauthorized" _)).
  reflexivity.
Defined.

(** When the listing of the Deployments fails, the run returns that error
    and has made no [Create] and no [Delete] call, whatever VPAs the
    cluster holds. *)
Theorem deployment_listing_failure_changes_nothing {St : Type}
    (vc : versioned_Clientset St) (kc : kubernetes_Clientset St) (s0 : St)
    (V : list VPA) (e : error) :
  fst (VerticalPodAutoscalers_List vc "" s0) = inl V ->
  fst (Deployments_List kc "" (snd (VerticalPodAutoscalers_List vc "" s0)))
    = inr e ->
  result (createVPAs vc kc s0) =
    Val (Some (Errorf "failed to fetch Deployments: " e)) /\
  actions (emitted (createVPAs vc kc s0)) = [].
Proof.
  intros HV HD. unfold createVPAs.
  erewrite bind_val by reflexivity. rewrite bind_call, HV.
  cbv beta iota. rewrite bind_call, HD. repeat split.
Qed.

(** The orphan "old" survives a cycle in which the Deployments cannot be
    listed. *)
Lemma deployment_listing_failure_changes_nothing_witness :
  actions
    (emitted (createVPAs (stub.vpaClient (inl [oldVPA]) fake.noFaults)
                (stub.k8sClient (inr "timeout") (inl []) (inl [])) tt))
  = [].
Proof.
  refine (proj2 (@deployment_listing_failure_changes_nothing unit
            (stub.vpaClient (inl [oldVPA]) fake.noFaults)
            (stub.k8sClient (inr "timeout") (inl []) (inl [])) tt
            [oldVPA] "timeout" _ _)).
  - reflexivity.
  - reflexivity.
Defined.

Section LateFailure.
Context {St : Type} (vc : versioned_Clientset St)
  (kc : kubernetes_Clientset St).
Variables (deployments : list Deployment) (statefulSets : list StatefulSet)
  (vpas : list VPA) (s0 : St) (e : error).

Hypothesis listVPAs :
  fst (VerticalPodAutoscalers_List vc "" s0) = inl vpas.
Hypothesis listDeployments :
  forall s, fst (Deployments_List kc "" s) = inl deployments.

(** When the listing of the StatefulSets fails, the VPAs of the Deployments
    have been asked for already: the run has made exactly those [Create]
    calls, no [Delete] call, and returns the error of the listing. *)
Theorem statefulset_listing_failure_keeps_creates :
  (forall s, fst (StatefulSets_List kc "" s) = inr e) ->
  result (createVPAs vc kc s0) =
    Val (Some (Errorf "failed to fetch StatefulSets: " e)) /\
  actions (emitted (createVPAs vc kc s0)) =
    map createAction
      (filter (fun w => negb (hasVPA vpas w))
         (map (refOf "Deployment") deployments)).
Proof.
  intros HS. unfold createVPAs.
  erewrite bind_val by reflexivity. rewrite bind_call, listVPAs.
  cbv beta iota. rewrite bind_call, listDeployments. cbv beta iota.
  match goal with |- context [bind (range deployments _) _ ?s] =>
    destruct (range_createVPA_acts deployments "Deployment" vpas vc s)
      as (s1 & tr1 & E1 & A1) end.
  erewrite bind_val by exact E1. cbn [result final emitted].
  rewrite bind_call, HS. cbn [result final emitted ret].
  split; [reflexivity|].
  rewrite !actions_app, A1. simpl. now rewrite app_nil_r.
Qed.

(** When the listing of the DaemonSets fails, the VPAs of the Deployments
    and of the StatefulSets have been asked for: exactly those [Create]
    calls, in that order, and no [Delete] call. *)
Theorem daemonset_listing_failure_keeps_creates :
  (forall s, fst (StatefulSets_List kc "" s) = inl statefulSets) ->
  (forall s, fst (DaemonSets_List kc "" s) = inr e) ->
  result (createVPAs vc kc s0) =
    Val (Some (Errorf "failed to fetch DaemonSets: " e)) /\
  actions (emitted (createVPAs vc kc s0)) =
    map createAction
      (filter (fun w => negb (hasVPA vpas w))
         (map (refOf "Deployment") deployments ++
          map (refOf "StatefulSet") statefulSets)).
Proof.
  intros HS HM. unfold createVPAs.
  erewrite bind_val by reflexivity. rewrite bind_call, listVPAs.
  cbv beta iota. rewrite bind_call, listDeployments. cbv beta iota.
  match goal with |- context [bind (range deployments _) _ ?s] =>
    destruct (range_createVPA_acts deployments "Deployment" vpas vc s)
      as (s1 & tr1 & E1 & A1) end.
  erewrite bind_val by exact E1. cbn [result final emitted].
  rewrite bind_call, HS. cbv beta iota.
  match goal with |- context [bind (range statefulSets _) _ ?s] =>
    destruct (range_createVPA_acts statefulSets "StatefulSet" vpas vc s)
      as (s2 & tr2 & E2 & A2) end.
  erewrite bind_val by exact E2. cbn [result final emitted].
  rewrite bind_call, HM. cbn [result final emitted ret].
  split; [reflexivity|].
  rewrite !actions_app, A1, A2. simpl.
  now rewrite app_nil_r, filter_app, map_app.
Qed.
End LateFailure.

(** The VPA of "web" is created although the run fails afterwards, and
    "old" is not deleted. *)
Lemma statefulset_listing_failure_keeps_creates_witness :
  actions
    (emitted (createVPAs (stub.vpaClient (inl [oldVPA]) fake.noFaults)
                (stub.k8sClient (inl [webDeployment]) (inr "timeout") (inl []))
                tt))
  = [createAction (refOf "Deployment" webDeployment)].
Proof.
  refine (proj2 (@statefulset_listing_failure_keeps_creates unit
            (stub.vpaClient (inl [oldVPA]) fake.noFaults)
            (stub.k8sClient (inl [webDeployment]) (inr "timeout") (inl []))
            [webDeployment] [oldVPA] tt "timeout" _ _ _)).
  - reflexivity.
  - intros s; reflexivity.
  - intros s; reflexivity.
Defined.

Lemma daemonset_listing_failure_keeps_creates_witness :
  actions
    (emitted (createVPAs (stub.vpaClient (inl [oldVPA]) fake.noFaults)
                (stub.k8sClient (inl [webDeployment]) (inl [dbStatefulSet])
                   (inr "timeout")) tt))
  = [createAction (refOf "Deployment" webDeployment);
     createAction (refOf "StatefulSet" dbStatefulSet)].
Proof.
  refine (proj2 (@daemonset_listing_failure_keeps_creates unit
            (stub.vpaClient (inl [oldVPA]) fake.noFaults)
            (stub.k8sClient (inl [webDeployment]) (inl [dbStatefulSet])
               (inr "timeout"))
            [webDeployment] [dbStatefulSet] [oldVPA] tt "timeout" _ _ _ _)).
  - reflexivity.
  - intros s; reflexivity.
  - intros s; reflexivity.
  - intros s; reflexivity.
Defined.

(** ** Runs in which calls fail *)

(** A delete-side test that answers, answers what [hasWorkload] says, with
    or without target reference. *)
Lemma deleteSide_test_answer {T : Type} (gn gns : T -> string) (l : list T)
    (v : VPA) (k : string) (b : bool) :
  slices_ContainsFunc l (fun d =>
    if (gn d =? vName v) && (gns d =? vNamespace v)
    then match deref (TargetRef (Spec v)) with
         | Val t => Val (autoscalingv1.Kind t =? k)
         | Panic => Panic
         end
    else Val false) = Val b ->
  existsb (fun d => (gn d =? vName v) && (gns d =? vNamespace v)
                    && (targetKind v =? k)) l = b.
Proof.
  unfold targetKind.
  induction l as [|d l IH]; simpl; intros H; [congruence|].
  destruct ((gn d =? vName v) && (gns d =? vNamespace v)); simpl.
  - destruct (TargetRef (Spec v)) as [t|]; simpl in *; [|discriminate].
    destruct (autoscalingv1.Kind t =? k); simpl; [congruence | auto].
  - auto.
Qed.

(** A loop that may stop early has done a prefix of what it would do. *)
Lemma rangeReturning_prefix {St A : Type} (body : A -> Go St (option error))
    (act : A -> list event) (R : error -> list event -> Prop)
    (items : list A) :
  (forall x s, In x items ->
     exists r s' tr,
       body x s = mkOut r s' tr /\ turnOutcome (act x) R r tr) ->
  forall s,
    (exists rest,
       flat_map act items =
         actions (emitted (rangeReturning items body s)) ++ rest /\
       (result (rangeReturning items body s) = Val None -> rest = [])) /\
    (forall e, result (rangeReturning items body s) = Val (Some e) ->
       exists pre last,
         actions (emitted (rangeReturning items body s)) = pre ++ last /\
         R e last).
Proof.
  induction items as [|x t IH]; intros Hb s.
  - simpl. split; [exists []; auto | discriminate].
  - assert (Ht : forall y s', In y t -> _) by
      (intros y s' Hy; exact (Hb y s' (or_intror Hy))).
    specialize (IH Ht). clear Ht.
    change (rangeReturning (x :: t) body s) with
      (bind (body x) (fun r => match r with
                               | Some err => ret (Some err)
                               | None => rangeReturning t body
                               end) s).
    rewrite result_bind, emitted_bind. simpl flat_map.
    destruct (Hb x s (or_introl eq_refl)) as (r & s' & tr & Eb & Ho).
    rewrite Eb. cbn [result final emitted].
    destruct Ho as [[-> Ax]|(Rx & (rest & Ex) & Qx)].
    + rewrite actions_app, Ax.
      destruct (IH s') as [(rest & E & Hn) Hs].
      split.
      * exists rest. rewrite E, app_assoc. auto.
      * intros e He. destruct (Hs e He) as (pre & last & Ea & HR).
        exists (act x ++ pre), last. rewrite Ea, app_assoc. auto.
    + destruct r as [[e'|]|]; [| congruence |].
      * simpl. rewrite app_nil_r. split.
        -- exists (rest ++ flat_map act t). rewrite Ex, <- app_assoc.
           split; [reflexivity | discriminate].
        -- intros e He. inversion He; subst.
           exists [], (actions tr). auto.
      * rewrite app_nil_r. split.
        -- exists (rest ++ flat_map act t). rewrite Ex, <- app_assoc.
           split; [reflexivity | discriminate].
        -- discriminate.
Qed.

Section AnyOutcome.
Context {St : Type} (vc : versioned_Clientset St)
  (kc : kubernetes_Clientset St).
Variables (deployments : list Deployment) (statefulSets : list StatefulSet)
  (daemonSets : list DaemonSet) (vpas : list VPA) (s0 : St).

Hypothesis listVPAs :
  fst (VerticalPodAutoscalers_List vc "" s0) = inl vpas.
Hypothesis listDeployments :
  forall s, fst (Deployments_List kc "" s) = inl deployments.
Hypothesis listStatefulSets :
  forall s, fst (StatefulSets_List kc "" s) = inl statefulSets.
Hypothesis listDaemonSets :
  forall s, fst (DaemonSets_List kc "" s) = inl daemonSets.

Local Abbreviation W := (workloads deployments statefulSets daemonSets).

(** Whatever the calls answer and whether or not the VPAs have target
    references: the run makes the creates of the plan, then a prefix of its
    deletes; all of them when it returns without error; and an error it
    returns is the answer to the last [Delete] call. *)
Lemma createVPAs_outcome :
  exists dels rest,
    actions (emitted (createVPAs vc kc s0)) =
      map createAction (toCreate (Plan W vpas)) ++ dels /\
    map deleteAction (toDelete (Plan W vpas)) = dels ++ rest /\
    (result (createVPAs vc kc s0) = Val None -> rest = []) /\
    (forall e, result (createVPAs vc kc s0) = Val (Some e) ->
       exists pre last, dels = pre ++ last /\ failedDelete vc e last).
Proof.
  unfold createVPAs.
  erewrite bind_val by reflexivity. rewrite bind_call, listVPAs.
  cbv beta iota. rewrite bind_call, listDeployments. cbv beta iota.
  match goal with |- context [bind (range deployments _) _ ?s] =>
    destruct (range_createVPA_acts deployments "Deployment" vpas vc s)
      as (s1 & tr1 & E1 & A1) end.
  erewrite bind_val by exact E1. cbn [result final emitted].
  rewrite bind_call, listStatefulSets. cbv beta iota.
  match goal with |- context [bind (range statefulSets _) _ ?s] =>
    destruct (range_createVPA_acts statefulSets "StatefulSet" vpas vc s)
      as (s2 & tr2 & E2 & A2) end.
  erewrite bind_val by exact E2. cbn [result final emitted].
  rewrite bind_call, listDaemonSets. cbv beta iota.
  match goal with |- context [bind (range daemonSets _) _ ?s] =>
    destruct (range_createVPA_acts daemonSets "DaemonSet" vpas vc s)
      as (s3 & tr3 & E3 & A3) end.
  erewrite bind_val by exact E3. cbn [result final emitted].
  rewrite result_bind, emitted_bind.
  match goal with |- context [rangeReturning vpas ?b ?st] =>
    destruct (@rangeReturning_prefix St VPA b
                (fun v => if negb (hasWorkload W v) && negb (exempt v)
                          then [deleteAction v] else [])
                (failedDelete vc) vpas) with (s := st)
      as [(rest & EP & HN) HS];
    [|set (o := rangeReturning vpas b st) in *]
  end.
  { intros v s _.
    rewrite hasWorkload_workloads. unfold exempt, strings_HasPrefix.
    cbn [GetName GetNamespace
      Deployment_vpaTarget StatefulSet_vpaTarget DaemonSet_vpaTarget].
    unfold bind at 1. unfold eval at 1. cbn [result final emitted].
    destruct (slices_ContainsFunc deployments _) as [bD|] eqn:ED;
      [|do 3 eexists; split; [reflexivity|]; right;
        split; [discriminate|]; split; [eexists; reflexivity|];
        discriminate].
    apply deleteSide_test_answer in ED. rewrite ED.
    destruct bD; cbn [orb negb andb];
      [do 3 eexists; split; [reflexivity|]; left; split; reflexivity|].
    unfold bind at 1. unfold eval at 1. cbn [result final emitted].
    destruct (slices_ContainsFunc statefulSets _) as [bS|] eqn:ES;
      [|do 3 eexists; split; [reflexivity|]; right;
        split; [discriminate|]; split; [eexists; reflexivity|];
        discriminate].
    apply deleteSide_test_answer in ES. rewrite ES.
    destruct bS; cbn [orb negb andb];
      [do 3 eexists; split; [reflexivity|]; left; split; reflexivity|].
    unfold bind at 1. unfold eval at 1. cbn [result final emitted].
    destruct (slices_ContainsFunc daemonSets _) as [bM|] eqn:EM;
      [|do 3 eexists; split; [reflexivity|]; right;
        split; [discriminate|]; split; [eexists; reflexivity|];
        discriminate].
    apply deleteSide_test_answer in EM. rewrite EM.
    destruct bM; cbn [orb negb andb];
      [do 3 eexists; split; [reflexivity|]; left; split; reflexivity|].
    destruct (String.prefix "goldilocks" (vName v)); cbn [negb];
      [do 3 eexists; split; [reflexivity|]; left; split; reflexivity|].
    unfold bind, call, eval, slog, ret. cbn [result final emitted].
    destruct (fst (VerticalPodAutoscalers_Delete vc (vNamespace v) (vName v) s))
      as [e|] eqn:EDel; cbn [result final emitted app].
    - do 3 eexists; split; [reflexivity|]. right.
      split; [discriminate|]. split; [exists []; reflexivity|].
      intros e' He'. inversion He'; subst.
      exists (vNamespace v), (vName v), s. auto.
    - destruct (TargetRef (Spec v)) as [t|]; cbn [deref result final emitted];
        do 3 eexists; (split; [reflexivity|]).
      + left. split; reflexivity.
      + right. split; [discriminate|]. split; [exists []; reflexivity|].
        discriminate. }
  rewrite (flat_map_filter
             (fun v => negb (hasWorkload W v) && negb (exempt v))
             deleteAction) in EP.
  exists (actions (emitted o)), rest.
  split; [|split; [exact EP|split]].
  - rewrite !actions_app, A1, A2, A3. cbn [actions filter isAction app].
    unfold workloads. cbn [toCreate Plan].
    rewrite !filter_app, !map_app, <- !app_assoc. do 3 f_equal.
    destruct (result o) as [[e|]|]; cbn [emitted ret slog bind result];
      now rewrite ?app_nil_r.
  - destruct (result o) as [[e|]|] eqn:Ro; cbn [ret result];
      [discriminate | intros _; now apply HN | discriminate].
  - intros e. destruct (result o) as [[e'|]|] eqn:Ro; cbn [ret result];
      [|discriminate|discriminate].
    intros He. apply HS. exact He.
Qed.

(** Whatever the calls answer, with or without target references: the
    [Delete] calls of a run are a prefix of the deletes of the plan, all of
    them when the run returns without error; so every [Delete] call is for
    a listed VPA that no workload of its name, namespace and target kind
    accounts for and whose name does not begin with "goldilocks". *)
Theorem deletes_are_a_prefix_of_the_plan :
  (exists rest,
     map (fun v => (vNamespace v, vName v)) (toDelete (Plan W vpas)) =
       deleteCalls (emitted (createVPAs vc kc s0)) ++ rest /\
     (result (createVPAs vc kc s0) = Val None -> rest = [])) /\
  (forall ns n, In (Delete ns n) (emitted (createVPAs vc kc s0)) ->
     exists v, In v vpas /\ vNamespace v = ns /\ vName v = n /\
       (~ exists w, In w W /\ name w = vName v /\
                    namespace w = vNamespace v /\ kind w = targetKind v) /\
       String.prefix "goldilocks" (vName v) = false).
Proof.
  destruct createVPAs_outcome as (dels & rest & EA & EP & HN & _).
  assert (ED : deleteCalls (emitted (createVPAs vc kc s0)) = deleteCalls dels).
  { rewrite <- deleteCalls_actions, EA, deleteCalls_app.
    now rewrite deleteCalls_createActions. }
  assert (EK : map (fun v => (vNamespace v, vName v)) (toDelete (Plan W vpas))
               = deleteCalls dels ++ deleteCalls rest).
  { now rewrite <- deleteCalls_deleteActions, EP, deleteCalls_app. }
  split.
  - exists (deleteCalls rest). rewrite ED. split; [exact EK|].
    intros Hr. now rewrite (HN Hr).
  - intros ns n Hin. apply In_deleteCalls in Hin. rewrite ED in Hin.
    assert (Hk : In (ns, n)
                   (map (fun v => (vNamespace v, vName v))
                      (toDelete (Plan W vpas))))
      by (rewrite EK; apply in_or_app; now left).
    apply in_map_iff in Hk. destruct Hk as (v & Ev & Hv).
    apply In_toDelete in Hv. destruct Hv as (Hv & Hw & Hp).
    exists v. inversion Ev; subst. auto.
Qed.

(** A run never deletes, by namespace and name, an object it has just asked
    the cluster to create. *)
Theorem never_deletes_what_it_creates (ns : string) (o : VPA) :
  In (Create ns o) (emitted (createVPAs vc kc s0)) ->
  ~ In (Delete ns (vName o)) (emitted (createVPAs vc kc s0)).
Proof.
  intros Hc Hd. apply In_createCalls in Hc.
  rewrite (@createVPAs_createCalls St vc kc deployments statefulSets
             daemonSets vpas s0 listVPAs listDeployments listStatefulSets
             listDaemonSets) in Hc.
  apply in_map_iff in Hc. destruct Hc as (w & E & Hw).
  assert (E1 := f_equal fst E). assert (E2 := f_equal snd E).
  cbn [fst snd] in E1, E2. subst ns o.
  apply In_toCreate in Hw. destruct Hw as [_ Hn].
  destruct createVPAs_outcome as (dels & rest & EA & EP & _ & _).
  apply In_deleteCalls in Hd.
  rewrite <- deleteCalls_actions, EA, deleteCalls_app in Hd.
  rewrite deleteCalls_createActions in Hd. simpl in Hd.
  assert (Hk : In (namespace w, vName (ManagedVPASpec w))
                 (map (fun v => (vNamespace v, vName v))
                    (toDelete (Plan W vpas)))).
  { rewrite <- deleteCalls_deleteActions, EP, deleteCalls_app.
    apply in_or_app. now left. }
  apply in_map_iff in Hk. destruct Hk as (v & Ev & Hv).
  apply In_toDelete in Hv. destruct Hv as (Hv & _).
  apply Hn. exists v. inversion Ev. auto.
Qed.
(** C1. A VPA of the snapshot is deleted if and only if no workload has
    its name, its namespace and the kind of its target reference, and its
    name does not begin with "goldilocks".  A run that returns without
    error has made the [Delete] calls of [toDelete], one per VPA and in
    order; any other run has made the first of them and no other.  The
    workload test looks at the Deployments first, then the StatefulSets,
    then the DaemonSets, and any match keeps the VPA. *)
Theorem delete_iff_no_workload_of_kind :
  (result (createVPAs vc kc s0) = Val None ->
     deleteCalls (emitted (createVPAs vc kc s0)) =
       map (fun v => (vNamespace v, vName v)) (toDelete (Plan W vpas))) /\
  (exists rest,
     map (fun v => (vNamespace v, vName v)) (toDelete (Plan W vpas)) =
       deleteCalls (emitted (createVPAs vc kc s0)) ++ rest) /\
  (forall v, In v vpas ->
     (In v (toDelete (Plan W vpas)) <->
      (~ exists w, In w W /\ name w = vName v /\
                   namespace w = vNamespace v /\ kind w = targetKind v) /\
      String.prefix "goldilocks" (vName v) = false)) /\
  (forall v,
     hasWorkload W v =
     existsb (fun d => (GetName d =? vName v) &&
                       (GetNamespace d =? vNamespace v) &&
                       (targetKind v =? "Deployment")) deployments
     || existsb (fun s => (GetName s =? vName v) &&
                          (GetNamespace s =? vNamespace v) &&
                          (targetKind v =? "StatefulSet")) statefulSets
     || existsb (fun d => (GetName d =? vName v) &&
                          (GetNamespace d =? vNamespace v) &&
                          (targetKind v =? "DaemonSet")) daemonSets).
Proof.
  destruct createVPAs_outcome as (dels & rest & EA & EP & HN & _).
  assert (ED : deleteCalls (emitted (createVPAs vc kc s0)) = deleteCalls dels).
  { rewrite <- deleteCalls_actions, EA, deleteCalls_app.
    now rewrite deleteCalls_createActions. }
  assert (EK : map (fun v => (vNamespace v, vName v)) (toDelete (Plan W vpas))
               = deleteCalls dels ++ deleteCalls rest).
  { now rewrite <- deleteCalls_deleteActions, EP, deleteCalls_app. }
  split; [|split; [|split]].
  - intros Hr. rewrite ED, EK, (HN Hr). simpl. now rewrite app_nil_r.
  - exists (deleteCalls rest). now rewrite ED.
  - intros v Hin. rewrite In_toDelete. tauto.
  - intros v. apply hasWorkload_workloads.
Qed.

(** C10. The order of the actions is fixed by the snapshots: the creates
    for the unmatched Deployments in listing order, then those for the
    StatefulSets, then those for the DaemonSets, and only then the
    deletes, in the order of the VPA listing.  Every run makes all the
    creates and then the first deletes of the plan, all of them when it
    returns without error; its trace splits into a part without [Delete]
    followed by a part without [Create]. *)
Theorem action_order_determined :
  (exists dels rest,
     actions (emitted (createVPAs vc kc s0)) =
       map createAction (toCreate (Plan W vpas)) ++ dels /\
     map deleteAction (toDelete (Plan W vpas)) = dels ++ rest /\
     (result (createVPAs vc kc s0) = Val None -> rest = [])) /\
  toCreate (Plan W vpas) =
    map (refOf "Deployment")
      (filter (fun d => negb (hasVPA vpas (refOf "Deployment" d)))
         deployments) ++
    map (refOf "StatefulSet")
      (filter (fun s => negb (hasVPA vpas (refOf "StatefulSet" s)))
         statefulSets) ++
    map (refOf "DaemonSet")
      (filter (fun d => negb (hasVPA vpas (refOf "DaemonSet" d)))
         daemonSets) /\
  toDelete (Plan W vpas) =
    filter (fun v => negb (hasWorkload W v) && negb (exempt v)) vpas /\
  (exists tr1 tr2,
     emitted (createVPAs vc kc s0) = tr1 ++ tr2 /\
     deleteCalls tr1 = [] /\ createCalls tr2 = []).
Proof.
  destruct createVPAs_outcome as (dels & rest & EA & EP & HN & _).
  split; [exists dels, rest; auto|].
  split; [apply toCreate_by_kind|]. split; [reflexivity|].
  destruct (@createVPAs_creates St vc kc deployments statefulSets daemonSets
              vpas s0 listVPAs listDeployments listStatefulSets
              listDaemonSets) as (tr1 & tr2 & E & A1 & N).
  exists tr1, tr2. split; [exact E|]. split.
  - eapply createActions_notDelete; exact A1.
  - exact (notCreate_createCalls N).
Qed.
End AnyOutcome.

(** Kind-sensitive deletion, on the modelled cluster: the VPA "api" targets
    a StatefulSet, the only workload "api" is a Deployment, and the VPA is
    deleted. *)
Lemma delete_iff_no_workload_of_kind_witness :
  result (kube.pass [apiDeployment] [] [] [apiVPA]) = Val None /\
  deleteCalls (emitted (kube.pass [apiDeployment] [] [] [apiVPA]))
  = [("ns", "api")].
Proof.
  split; [reflexivity|].
  refine (proj1 (@delete_iff_no_workload_of_kind (list VPA)
            kube.vpaClient (kube.k8sClient [apiDeployment] [] [])
            [apiDeployment] [] [] [apiVPA] [apiVPA] _ _ _ _) _).
  - reflexivity.
  - intros s; reflexivity.
  - intros s; reflexivity.
  - intros s; reflexivity.
  - reflexivity.
Defined.

(** The end-to-end scenario, on the modelled cluster: "web" and "db" get
    their VPAs, then "old" is deleted. *)
Lemma action_order_determined_witness :
  actions (emitted (kube.pass [webDeployment] [dbStatefulSet] [] [oldVPA]))
  = [createAction (refOf "Deployment" webDeployment);
     createAction (refOf "StatefulSet" dbStatefulSet);
     deleteAction oldVPA].
Proof.
  destruct (proj1 (@action_order_determined (list VPA)
              kube.vpaClient
              (kube.k8sClient [webDeployment] [dbStatefulSet] [])
              [webDeployment] [dbStatefulSet] [] [oldVPA] [oldVPA]
              eq_refl (fun _ => eq_refl) (fun _ => eq_refl)
              (fun _ => eq_refl)))
    as (dels & rest & EA & EP & HN).
  rewrite (HN eq_refl), app_nil_r in EP. unfold kube.pass.
  rewrite EA, <- EP. reflexivity.
Defined.

(** The cluster refuses to delete "old1": the one [Delete] call made is
    the first of the two of the plan. *)
Lemma deletes_are_a_prefix_of_the_plan_witness :
  exists rest,
    [("default", "old1"); ("default", "old2")] =
      deleteCalls (emitted refusedDelete) ++ rest /\
    (result refusedDelete = Val None -> rest = []).
Proof.
  refine (proj1 (@deletes_are_a_prefix_of_the_plan unit
            (fake.vpaClient [old1VPA; old2VPA] (denyDelete "old1"))
            (fake.k8sClient [webDeployment; mkDeployment "api" "default"] [] [])
            [webDeployment; mkDeployment "api" "default"] [] []
            [old1VPA; old2VPA] tt _ _ _ _)).
  - reflexivity.
  - intros s; reflexivity.
  - intros s; reflexivity.
  - intros s; reflexivity.
Defined.

(** "web" is created and "old" deleted in one run; "web" is not deleted. *)
Lemma never_deletes_what_it_creates_witness :
  ~ In (Delete "default" "web")
      (emitted (createVPAs (fake.vpaClient [oldVPA] fake.noFaults)
                  (fake.k8sClient [webDeployment] [dbStatefulSet] []) tt)).
Proof.
  refine (@never_deletes_what_it_creates unit
            (fake.vpaClient [oldVPA] fake.noFaults)
            (fake.k8sClient [webDeployment] [dbStatefulSet] [])
            [webDeployment] [dbStatefulSet] [] [oldVPA] tt _ _ _ _
            "default" (ManagedVPASpec (refOf "Deployment" webDeployment)) _).
  - reflexivity.
  - intros s; reflexivity.
  - intros s; reflexivity.
  - intros s; reflexivity.
  - vm_compute. auto 10.
Defined.

(** ** The loop of [main] *)

Lemma sleeps_app (t1 t2 : list event) :
  sleeps (t1 ++ t2) = sleeps t1 ++ sleeps t2.
Proof.
  induction t1 as [|e t1 IH]; simpl; [reflexivity|].
  destruct e; simpl; rewrite IH; reflexivity.
Qed.

Lemma notSleep_sleeps (tr : list event) :
  Forall notSleep tr -> sleeps tr = [].
Proof.
  induction 1 as [|e tr He _ IH]; simpl; [reflexivity|].
  destruct e; simpl in *; tauto.
Qed.

Lemma createVPA_notSleep {St T : Type} `{vpaTarget T} (target : T)
    (apiVersion k : string) (vpas : list VPA) (vc : versioned_Clientset St) :
  emitsOnly notSleep (createVPA target apiVersion k vpas vc).
Proof. unfold createVPA. repeat emits_step; emits_done. Qed.

Lemma createVPAs_notSleep {St : Type} (vc : versioned_Clientset St)
    (kc : kubernetes_Clientset St) :
  emitsOnly notSleep (createVPAs vc kc).
Proof.
  unfold createVPAs.
  repeat first [ apply createVPA_notSleep | emits_step ]; emits_done.
Qed.

(** A turn of the loop whose run does not panic ends normally, whether the
    run returned an error or not, and pauses once, for five minutes. *)
Lemma cycle_sleeps_once {St : Type} (vc : versioned_Clientset St)
    (kc : kubernetes_Clientset St) (s : St) :
  result (createVPAs vc kc s) <> Panic ->
  result (cycle vc kc s) = Val tt /\ sleeps (emitted (cycle vc kc s)) = [5].
Proof.
  intros Hn. unfold cycle. rewrite result_bind, emitted_bind, sleeps_app.
  rewrite (notSleep_sleeps (createVPAs_notSleep vc kc s)).
  destruct (result (createVPAs vc kc s)) as [[e|]|]; [| |congruence];
    split; reflexivity.
Qed.

(** Errors never end the loop of [main]: on a cluster whose VPAs all have
    target references, [n] turns end normally and pause [n] times, five
    minutes each, whatever the listings, creates and deletes answer. *)
Theorem main_loop_survives_errors {St : Type} (vc : versioned_Clientset St)
    (kc : kubernetes_Clientset St) :
  (forall s V, fst (VerticalPodAutoscalers_List vc "" s) = inl V ->
     Forall hasTargetRef V) ->
  forall n s0,
    result (mainLoop n vc kc s0) = Val tt /\
    sleeps (emitted (mainLoop n vc kc s0)) = repeat 5 n.
Proof.
  intros HT. induction n as [|n IH]; intros s0; simpl.
  - split; reflexivity.
  - destruct (cycle_sleeps_once vc kc s0) as [Rc Sc].
    { apply createVPAs_never_panics. intros V. apply HT. }
    rewrite result_bind, emitted_bind, sleeps_app, Rc, Sc.
    destruct (IH (final (cycle vc kc s0))) as [Rn Sn].
    rewrite Rn, Sn. split; reflexivity.
Qed.

(** Three turns on a cluster that refuses to list its Deployments: three
    failed runs, three pauses, and the loop is still going. *)
Lemma main_loop_survives_errors_witness :
  result (mainLoop 3 (stub.vpaClient (inl [oldVPA]) fake.noFaults)
            (stub.k8sClient (inr "timeout") (inl []) (inl [])) tt) = Val tt /\
  sleeps (emitted (mainLoop 3 (stub.vpaClient (inl [oldVPA]) fake.noFaults)
                     (stub.k8sClient (inr "timeout") (inl []) (inl [])) tt))
    = [5; 5; 5].
Proof.
  refine (@main_loop_survives_errors unit
            (stub.vpaClient (inl [oldVPA]) fake.noFaults)
            (stub.k8sClient (inr "timeout") (inl []) (inl [])) _ 3 tt).
  intros s V E. simpl in E. inversion E; subst.
  apply Forall_cons; [discriminate | apply Forall_nil].
Defined.

(** A panic is not recovered: when a run panics, the loop of [main] ends
    with it, with the trace of that run and nothing after it (no log line,
    no pause, no further turn). *)
Theorem panic_ends_the_loop {St : Type} (vc : versioned_Clientset St)
    (kc : kubernetes_Clientset St) (s0 : St) (n : nat) :
  result (createVPAs vc kc s0) = Panic ->
  mainLoop (S n) vc kc s0 =
    mkOut Panic (final (createVPAs vc kc s0)) (emitted (createVPAs vc kc s0)).
Proof.
  intros Hp. cbn [mainLoop]. unfold cycle, bind. rewrite Hp. reflexivity.
Qed.

Lemma panic_ends_the_loop_witness :
  mainLoop 4 bareClient (fake.k8sClient [apiDeployment] [] []) tt =
  mkOut Panic tt [Slog Info "scanning for changes" []].
Proof.
  refine (@panic_ends_the_loop unit bareClient
            (fake.k8sClient [apiDeployment] [] []) tt 3 _).
  reflexivity.
Defined.

(** ** What the log says about creates *)

Lemma logged_app (msg : string) (t1 t2 : list event) :
  logged msg (t1 ++ t2) = logged msg t1 + logged msg t2.
Proof. unfold logged. now rewrite filter_app, length_app. Qed.

Lemma createsLogged_app (t1 t2 : list event) :
  createsLogged t1 -> createsLogged t2 -> createsLogged (t1 ++ t2).
Proof.
  unfold createsLogged. intros [B1 C1] [B2 C2].
  rewrite !logged_app, createCalls_app, length_app. lia.
Qed.

Section CreatesLogged.
Context {St : Type}.

Lemma emitsLogged_ret {A : Type} (a : A) : emitsLogged (ret (St := St) a).
Proof. intros s. split; reflexivity. Qed.

Lemma emitsLogged_eval {A : Type} (r : res A) :
  emitsLogged (eval (St := St) r).
Proof. intros s. split; reflexivity. Qed.

Lemma emitsLogged_slog lvl msg attrs :
  (msg =? "building VPA") = false -> (msg =? "created") = false ->
  emitsLogged (slog (St := St) lvl msg attrs).
Proof.
  intros H1 H2 s. unfold createsLogged, logged. simpl. now rewrite H1, H2.
Qed.

Lemma emitsLogged_call {A : Type} (f : St -> A * St) (evs : list event) :
  createsLogged evs -> emitsLogged (call f evs).
Proof. intros H s. exact H. Qed.

Lemma emitsLogged_bind {A B : Type} (m : Go St A) (f : A -> Go St B) :
  emitsLogged m -> (forall a, emitsLogged (f a)) -> emitsLogged (bind m f).
Proof.
  intros Hm Hf s. rewrite emitted_bind. apply createsLogged_app; [apply Hm|].
  destruct (result (m s)); [apply Hf | split; reflexivity].
Qed.

Lemma emitsLogged_range {A : Type} (items : list A) (body : A -> Go St unit) :
  (forall x, emitsLogged (body x)) -> emitsLogged (range items body).
Proof.
  intros Hb. induction items as [|x t IH]; simpl.
  - apply emitsLogged_ret.
  - apply emitsLogged_bind; auto.
Qed.

Lemma emitsLogged_rangeReturning {A : Type} (items : list A)
    (body : A -> Go St (option error)) :
  (forall x, emitsLogged (body x)) -> emitsLogged (rangeReturning items body).
Proof.
  intros Hb. induction items as [|x t IH]; simpl.
  - apply emitsLogged_ret.
  - apply emitsLogged_bind; auto.
    intros [e|]; [apply emitsLogged_ret | exact IH].
Qed.

Lemma createVPA_emitsLogged {T : Type} `{vpaTarget T} (target : T)
    (apiVersion k : string) (V : list VPA) (vc : versioned_Clientset St) :
  emitsLogged (createVPA target apiVersion k V vc).
Proof.
  intros s. unfold createVPA. rewrite ContainsFunc_Val.
  unfold bind, eval, call, slog, ret. simpl.
  destruct (existsb _ V); simpl; [split; reflexivity|].
  destruct (VerticalPodAutoscalers_Create vc _ _ s) as [[r [e|]] s']; simpl;
    split; reflexivity.
Qed.
End CreatesLogged.

Ltac logged_step :=
  first
    [ apply createVPA_emitsLogged
    | apply emitsLogged_range; intros ?
    | apply emitsLogged_rangeReturning; intros ?
    | apply emitsLogged_bind; [|intros ?]
    | apply emitsLogged_ret
    | apply emitsLogged_eval
    | apply emitsLogged_slog; reflexivity
    | apply emitsLogged_call; split; reflexivity
    | match goal with
      | |- emitsLogged (match ?x with _ => _ end) => destruct x eqn:?
      end ].

(** Every [Create] call of a run, answered well or not, has its "building
    VPA" line and its "created" line in the log, and the log has no other
    such lines: a refused create is logged as created too. *)
Theorem every_create_is_logged_as_created {St : Type}
    (vc : versioned_Clientset St) (kc : kubernetes_Clientset St) (s0 : St) :
  logged "building VPA" (emitted (createVPAs vc kc s0))
    = length (createCalls (emitted (createVPAs vc kc s0))) /\
  logged "created" (emitted (createVPAs vc kc s0))
    = length (createCalls (emitted (createVPAs vc kc s0))).
Proof.
  assert (H : emitsLogged (createVPAs vc kc)); [|exact (H s0)].
  unfold createVPAs. repeat logged_step.
Qed.

(** ** The loop of [src/main.go] *)

Lemma neverPanics_sleep {St : Type} (n : nat) :
  neverPanics (time_Sleep (St := St) n).
Proof. intros s. discriminate. Qed.

Lemma neverPanics_eval_ContainsFunc {St A : Type} (f : A -> bool)
    (l : list A) :
  neverPanics (eval (St := St) (slices_ContainsFunc l (fun x => Val (f x)))).
Proof. rewrite ContainsFunc_Val. apply neverPanics_eval. Qed.

Lemma neverPanics_rangeReturning_all {St A : Type} (items : list A)
    (body : A -> Go St (option error)) :
  (forall x, neverPanics (body x)) -> neverPanics (rangeReturning items body).
Proof.
  intros Hb. apply neverPanics_rangeReturning. apply Forall_forall. auto.
Qed.

(** This loop reads no target reference: an iteration never panics,
    whatever the cluster holds and answers. *)
Lemma legacy_iteration_neverPanics {St : Type} (vc : versioned_Clientset St)
    (kc : kubernetes_Clientset St) :
  neverPanics (legacy.iteration vc kc).
Proof.
  unfold legacy.iteration.
  repeat first
    [ apply neverPanics_eval_ContainsFunc
    | apply neverPanics_sleep
    | apply neverPanics_rangeReturning_all; intros ?
    | apply neverPanics_range; intros ?
    | apply neverPanics_bind; [|intros ?]
    | apply neverPanics_ret
    | apply neverPanics_slog
    | apply neverPanics_call
    | match goal with
      | |- neverPanics (match ?x with _ => _ end) => destruct x eqn:?
      | |- neverPanics (let '(_, _) := ?x in _) => destruct x eqn:?
      end ].
Qed.

Lemma hasDeployment_hasVPA (d : Deployment) (V : list VPA) :
  existsb (fun v => (metav1.Name (Deployment_ObjectMeta d) =? vName v) &&
                    (metav1.Namespace (Deployment_ObjectMeta d)
                       =? vNamespace v)) V =
  hasVPA V (refOf "Deployment" d).
Proof. exact (createVPA_test "Deployment" d V). Qed.

Section LegacyOutcome.
Context {St : Type} (vc : versioned_Clientset St)
  (kc : kubernetes_Clientset St).
Variables (deployments : list Deployment) (vpas : list VPA) (s0 : St).

Hypothesis listVPAs :
  fst (VerticalPodAutoscalers_List vc "" s0) = inl vpas.
Hypothesis listDeployments :
  forall s, fst (Deployments_List kc "" s) = inl deployments.

(** Whatever the creates and deletes answer: an iteration makes the creates
    for the Deployments without VPA of their name, then a prefix of the
    deletes for the VPAs without Deployment of their name; all of them and
    one pause when the loop goes on; no pause when it ended the process,
    and then the error is the answer to the last [Delete] call. *)
Lemma legacy_outcome :
  exists dels rest,
    actions (emitted (legacy.iteration vc kc s0)) =
      map createAction
        (filter (fun w => negb (hasVPA vpas w))
           (map (refOf "Deployment") deployments)) ++ dels /\
    map deleteAction
      (filter (fun v => negb (legacy.hasDeployment deployments v)) vpas)
      = dels ++ rest /\
    (result (legacy.iteration vc kc s0) = Val None ->
       rest = [] /\ sleeps (emitted (legacy.iteration vc kc s0)) = [5]) /\
    (forall e, result (legacy.iteration vc kc s0) = Val (Some e) ->
       sleeps (emitted (legacy.iteration vc kc s0)) = [] /\
       exists pre last, dels = pre ++ last /\ failedDelete vc e last).
Proof.
  unfold legacy.iteration.
  erewrite bind_val by reflexivity. rewrite bind_call, listVPAs.
  cbv beta iota. rewrite bind_call, listDeployments. cbv beta iota.
  match goal with |- context [bind (range deployments ?b) _ ?st] =>
    destruct (@range_acts St Deployment b
                (fun d => if negb (hasVPA vpas (refOf "Deployment" d))
                          then [createAction (refOf "Deployment" d)] else [])
                deployments) with (s := st) as (s1 & tr1 & E1 & A1);
    [|assert (N1 : Forall notSleep (emitted (range deployments b st)))]
  end.
  { intros d s _. rewrite ContainsFunc_Val, hasDeployment_hasVPA.
    unfold bind, eval, call, slog, ret. simpl.
    destruct (hasVPA vpas (refOf "Deployment" d)); simpl.
    - eauto.
    - destruct (VerticalPodAutoscalers_Create vc _ _ s) as [[r [e|]] s'];
        simpl; eexists; eexists; (split; [reflexivity|reflexivity]). }
  { match goal with |- Forall _ (emitted (?m ?st)) =>
      assert (HE : emitsOnly notSleep m); [|apply HE] end.
    repeat emits_step; emits_done. }
  rewrite E1 in N1. cbn [emitted] in N1.
  erewrite bind_val by exact E1. cbn [result final emitted].
  rewrite result_bind, emitted_bind.
  match goal with |- context [rangeReturning vpas ?b ?st] =>
    destruct (@rangeReturning_prefix St VPA b
                (fun v => if negb (legacy.hasDeployment deployments v)
                          then [deleteAction v] else [])
                (failedDelete vc) vpas) with (s := st)
      as [(rest & EP & HN) HS];
    [|assert (N2 : Forall notSleep (emitted (rangeReturning vpas b st)));
      [|set (o := rangeReturning vpas b st) in *]]
  end.
  { intros v s _. rewrite ContainsFunc_Val. fold (legacy.hasDeployment deployments v).
    unfold bind at 1. unfold eval at 1. cbn [result final emitted].
    destruct (legacy.hasDeployment deployments v); cbn [negb];
      [do 3 eexists; split; [reflexivity|]; left; split; reflexivity|].
    unfold bind, call, eval, slog, ret. cbn [result final emitted].
    destruct (fst (VerticalPodAutoscalers_Delete vc (vNamespace v) (vName v) s))
      as [e|] eqn:EDel; cbn [result final emitted app];
      do 3 eexists; (split; [reflexivity|]).
    - right. split; [discriminate|]. split; [exists []; reflexivity|].
      intros e' He'. inversion He'; subst.
      exists (vNamespace v), (vName v), s. auto.
    - left. split; reflexivity. }
  { match goal with |- Forall _ (emitted (?m ?st)) =>
      assert (HE : emitsOnly notSleep m); [|apply HE] end.
    repeat emits_step; emits_done. }
  rewrite (flat_map_filter
             (fun v => negb (legacy.hasDeployment deployments v))
             deleteAction) in EP.
  rewrite (flat_map_filter
             (fun d => negb (hasVPA vpas (refOf "Deployment" d)))
             (fun d => createAction (refOf "Deployment" d))) in A1.
  assert (A1' : actions tr1 =
                map createAction
                  (filter (fun w => negb (hasVPA vpas w))
                     (map (refOf "Deployment") deployments))).
  { rewrite A1. clear. induction deployments as [|x t IH]; simpl; [reflexivity|].
    destruct (negb (hasVPA vpas (refOf "Deployment" x))); simpl;
      now rewrite IH. }
  exists (actions (emitted o)), rest.
  split; [|split; [exact EP|split]].
  - rewrite !actions_app, A1'. cbn [actions filter isAction app].
    f_equal.
    destruct (result o) as [[e|]|]; cbn [emitted ret bind result time_Sleep];
      now rewrite ?app_nil_r.
  - rewrite !sleeps_app, (notSleep_sleeps N1), (notSleep_sleeps N2).
    destruct (result o) as [[e|]|] eqn:Ro; cbn [ret result];
      [discriminate | | discriminate].
    intros _. split; [now apply HN | reflexivity].
  - intros e. rewrite !sleeps_app, (notSleep_sleeps N1), (notSleep_sleeps N2).
    destruct (result o) as [[e'|]|] eqn:Ro; cbn [ret result];
      [|discriminate|discriminate].
    intros He. split; [reflexivity|]. apply HS. exact He.
Qed.

(** In this loop the delete side reads name and namespace only and knows
    no exemption: an iteration after which the loop goes on has made the
    creates for the Deployments without VPA and the deletes for all VPAs
    without Deployment of their name and namespace, whatever their target
    kind and whatever their name. *)
Theorem legacy_deletes_every_vpa_without_deployment :
  result (legacy.iteration vc kc s0) = Val None ->
  actions (emitted (legacy.iteration vc kc s0)) =
    map createAction
      (filter (fun w => negb (hasVPA vpas w))
         (map (refOf "Deployment") deployments)) ++
    map deleteAction
      (filter (fun v => negb (legacy.hasDeployment deployments v)) vpas) /\
  (forall v, In v vpas ->
     (In (deleteAction v) (emitted (legacy.iteration vc kc s0)) <->
      ~ exists d, In d deployments /\
          metav1.Name (Deployment_ObjectMeta d) = vName v /\
          metav1.Namespace (Deployment_ObjectMeta d) = vNamespace v)).
Proof.
  intros R.
  destruct legacy_outcome as (dels & rest & EA & EP & HN & _).
  destruct (HN R) as [-> _]. rewrite app_nil_r in EP. subst dels.
  split; [exact EA|].
  intros v Hv.
  assert (HD : legacy.hasDeployment deployments v = true <->
               exists d, In d deployments /\
                 metav1.Name (Deployment_ObjectMeta d) = vName v /\
                 metav1.Namespace (Deployment_ObjectMeta d) = vNamespace v).
  { unfold legacy.hasDeployment. rewrite existsb_exists. split.
    - intros (d & Hd & Hb). apply andb_true_iff in Hb. destruct Hb as [B1 B2].
      apply String.eqb_eq in B1, B2. eauto.
    - intros (d & Hd & E1 & E2). exists d. split; [exact Hd|].
      now rewrite E1, E2, !String.eqb_refl. }
  rewrite <- HD. split.
  - intros Hin Ht. unfold deleteAction in Hin. apply In_deleteCalls in Hin.
    rewrite <- deleteCalls_actions, EA, deleteCalls_app in Hin.
    rewrite deleteCalls_createActions, deleteCalls_deleteActions in Hin.
    simpl in Hin. apply in_map_iff in Hin. destruct Hin as (v' & Ev & Hv').
    apply filter_In in Hv'. destruct Hv' as [_ Hd].
    apply negb_true_iff in Hd. inversion Ev as [[E1 E2]].
    unfold legacy.hasDeployment in Hd, Ht. rewrite E1, E2 in Hd. congruence.
  - intros Hn. unfold deleteAction. apply In_deleteCalls.
    rewrite <- deleteCalls_actions, EA, deleteCalls_app.
    rewrite deleteCalls_createActions, deleteCalls_deleteActions. simpl.
    apply in_map_iff. exists v. split; [reflexivity|].
    apply filter_In. split; [exact Hv|].
    destruct (legacy.hasDeployment deployments v); [tauto | reflexivity].
Qed.
End LegacyOutcome.

(** On the modelled cluster, the VPA "goldilocks-web" and the VPA of the
    StatefulSet "db" are both deleted by this loop: no Deployment has their
    names. *)
Lemma legacy_deletes_every_vpa_without_deployment_witness :
  actions (emitted (legacy.pass [webDeployment] legacyOrphans))
  = [createAction (refOf "Deployment" webDeployment);
     Delete "default" "goldilocks-web";
     Delete "default" "db"].
Proof.
  refine (proj1 (@legacy_deletes_every_vpa_without_deployment (list VPA)
            kube.vpaClient (kube.k8sClient [webDeployment] [] [])
            [webDeployment] legacyOrphans legacyOrphans _ _ _)).
  - reflexivity.
  - intros s; reflexivity.
  - reflexivity.
Defined.

(** This loop never panics, over any number of turns: it reads no target
    reference, so a VPA without one is an object like any other. *)
Theorem legacy_never_panics {St : Type} (vc : versioned_Clientset St)
    (kc : kubernetes_Clientset St) (n : nat) (s0 : St) :
  result (legacy.main n vc kc s0) <> Panic.
Proof.
  revert s0. induction n as [|n IH]; intros s0; simpl; [discriminate|].
  rewrite result_bind.
  pose proof (legacy_iteration_neverPanics vc kc s0) as Hn.
  destruct (result (legacy.iteration vc kc s0)) as [[e|]|];
    [discriminate | apply IH | congruence].
Qed.

(** In this loop a listing that fails is logged and waited out: the
    iteration makes no [Create] and no [Delete] call, pauses five minutes,
    and the loop goes on. *)
Theorem legacy_listing_failure_pauses {St : Type}
    (vc : versioned_Clientset St) (kc : kubernetes_Clientset St) (s0 : St)
    (e : error) :
  fst (VerticalPodAutoscalers_List vc "" s0) = inr e \/
  (exists V, fst (VerticalPodAutoscalers_List vc "" s0) = inl V /\
     fst (Deployments_List kc "" (snd (VerticalPodAutoscalers_List vc "" s0)))
       = inr e) ->
  result (legacy.iteration vc kc s0) = Val None /\
  actions (emitted (legacy.iteration vc kc s0)) = [] /\
  sleeps (emitted (legacy.iteration vc kc s0)) = [5].
Proof.
  intros [H|(V & HV & HD)]; unfold legacy.iteration;
    erewrite bind_val by reflexivity; rewrite bind_call.
  - rewrite H. repeat split.
  - rewrite HV. cbv beta iota. rewrite bind_call, HD. repeat split.
Qed.

Lemma legacy_listing_failure_pauses_witness :
  result (legacy.iteration (stub.vpaClient (inl [oldVPA]) fake.noFaults)
            (stub.k8sClient (inr "timeout") (inl []) (inl [])) tt)
    = Val None /\
  actions (emitted (legacy.iteration
                      (stub.vpaClient (inl [oldVPA]) fake.noFaults)
                      (stub.k8sClient (inr "timeout") (inl []) (inl [])) tt))
    = [] /\
  sleeps (emitted (legacy.iteration
                     (stub.vpaClient (inl [oldVPA]) fake.noFaults)
                     (stub.k8sClient (inr "timeout") (inl []) (inl [])) tt))
    = [5].
Proof.
  refine (@legacy_listing_failure_pauses unit
            (stub.vpaClient (inl [oldVPA]) fake.noFaults)
            (stub.k8sClient (inr "timeout") (inl []) (inl [])) tt "timeout" _).
  right. exists [oldVPA]. split; reflexivity.
Defined.

(** ** That loop over the modelled cluster *)

Lemma hasDeployment_sameKey (D : list Deployment) (v x : VPA) :
  kube.sameKey (vNamespace v) (vName v) x = true ->
  legacy.hasDeployment D x = legacy.hasDeployment D v.
Proof.
  intros Hk. apply sameKey_key in Hk. unfold kube.key in Hk.
  inversion Hk as [[E1 E2]]. unfold legacy.hasDeployment.
  now rewrite E1, E2.
Qed.

Lemma hasDeployment_managed (D : list Deployment) (d : Deployment) :
  In d D ->
  legacy.hasDeployment D (ManagedVPASpec (refOf "Deployment" d)) = true.
Proof.
  intros Hd. unfold legacy.hasDeployment. apply existsb_exists.
  exists d. split; [exact Hd|].
  unfold vName, vNamespace. simpl. now rewrite !String.eqb_refl.
Qed.

Lemma In_legacy_afterDeletes (D : list Deployment) (l s : list VPA) (x : VPA) :
  In x (legacy.afterDeletes D l s) <->
  In x s /\
  forall v, In v l -> legacy.hasDeployment D v = false ->
    kube.sameKey (vNamespace v) (vName v) x = false.
Proof.
  unfold legacy.afterDeletes. revert s.
  induction l as [|v l IH]; intros s; simpl.
  - split; [intros H; split; [exact H | intros v []] | tauto].
  - rewrite IH. unfold legacy.afterDelete.
    destruct (legacy.hasDeployment D v) eqn:Hd.
    + split.
      * intros [Hx Hl]. split; [exact Hx|].
        intros v' [<-|Hv'] Hd'; [congruence | auto].
      * intros [Hx Hl]. split; [exact Hx | auto].
    + rewrite filter_In, negb_true_iff. split.
      * intros [[Hx Hk] Hl]. split; [exact Hx|].
        intros v' [<-|Hv'] Hd'; auto.
      * intros [Hx Hl]. split; [split; [exact Hx | auto] | auto].
Qed.

Lemma legacy_delete_step (D : list Deployment) (v : VPA) (t s : list VPA) :
  NoDup (map kube.key (v :: t)) ->
  (forall x, In x (v :: t) -> legacy.hasDeployment D x = false ->
     existsb (kube.sameKey (vNamespace x) (vName x)) s = true) ->
  forall x, In x t -> legacy.hasDeployment D x = false ->
    existsb (kube.sameKey (vNamespace x) (vName x))
      (legacy.afterDelete D v s) = true.
Proof.
  intros ND Hex x Hx Hd. specialize (Hex x (or_intror Hx) Hd).
  unfold legacy.afterDelete.
  destruct (legacy.hasDeployment D v); [exact Hex|].
  apply existsb_exists in Hex. destruct Hex as (y & Hy & Hk).
  apply existsb_exists. exists y. split; [|exact Hk].
  apply filter_In. split; [exact Hy|].
  destruct (kube.sameKey (vNamespace v) (vName v) y) eqn:E; [|reflexivity].
  exfalso. apply sameKey_key in E, Hk.
  simpl in ND. inversion ND as [|? ? Hnin _]; subst. apply Hnin.
  rewrite <- E, Hk. now apply in_map.
Qed.

(** One iteration over the cluster: the loop goes on, and the cluster is
    in the state the two folds compute. *)
Lemma legacy_kube_pass (D : list Deployment) (V : list VPA) :
  NoDup (map kube.key V) ->
  result (legacy.pass D V) = Val None /\
  final (legacy.pass D V) =
    legacy.afterDeletes D V
      (kube.afterCreates V (map (refOf "Deployment") D) V).
Proof.
  intros ND. unfold legacy.pass, legacy.iteration.
  erewrite bind_val by reflexivity.
  rewrite bind_call. cbn [kube.vpaClient VerticalPodAutoscalers_List fst snd].
  rewrite kube_list_all.
  rewrite bind_call. cbn [kube.k8sClient Deployments_List fst snd].
  match goal with |- context [bind (range D ?b) _ ?st] =>
    destruct (@range_steps (list VPA) Deployment b
                (fun d => if negb (hasVPA V (refOf "Deployment" d))
                          then [createAction (refOf "Deployment" d)] else [])
                (fun d s => kube.afterCreate V (refOf "Deployment" d) s) D)
      with (s := st) as (tr1 & E1 & _)
  end.
  { intros d s. rewrite ContainsFunc_Val, hasDeployment_hasVPA.
    unfold kube.afterCreate, bind, eval, call, slog, ret. simpl.
    destruct (hasVPA V (refOf "Deployment" d)); simpl.
    - eauto.
    - unfold vNamespace, vName. simpl. rewrite String.eqb_refl. simpl.
      destruct (existsb _ s); simpl; eexists; split; reflexivity. }
  erewrite bind_val by exact E1. cbn [result final emitted].
  rewrite <- (fold_left_map' (fun s w => kube.afterCreate V w s)
                (refOf "Deployment") D V).
  fold (kube.afterCreates V (map (refOf "Deployment") D) V).
  set (s3 := kube.afterCreates V (map (refOf "Deployment") D) V).
  match goal with |- context [bind (rangeReturning V ?b) _ _] =>
    destruct (@rangeReturning_steps (list VPA) VPA b
                (fun v => if negb (legacy.hasDeployment D v)
                          then [deleteAction v] else [])
                (fun v s => legacy.afterDelete D v s)
                (fun l s =>
                   NoDup (map kube.key l) /\
                   forall x, In x l -> legacy.hasDeployment D x = false ->
                     existsb (kube.sameKey (vNamespace x) (vName x)) s = true))
      with (items := V) (s := s3) as (tr4 & E4 & _)
  end.
  { intros v t s (NDv & Hex). split.
    - rewrite ContainsFunc_Val. fold (legacy.hasDeployment D v).
      specialize (Hex v (or_introl eq_refl)). revert Hex.
      unfold legacy.afterDelete.
      unfold bind at 1. unfold eval at 1. cbn [result final emitted].
      destruct (legacy.hasDeployment D v); cbn [negb].
      { intros _. exists []. split; reflexivity. }
      intros Hex. specialize (Hex eq_refl).
      unfold bind, call, eval, slog, ret.
      cbn [kube.vpaClient VerticalPodAutoscalers_Delete result final emitted].
      rewrite Hex. cbn [fst snd result final emitted].
      eexists; split; reflexivity.
    - split.
      + simpl in NDv. inversion NDv; assumption.
      + apply legacy_delete_step; assumption. }
  { split; [exact ND|].
    intros x Hx _. subst s3.
    destruct (afterCreates_grows V (map (refOf "Deployment") D) V)
      as (C & EC & _). rewrite EC.
    rewrite existsb_app. apply orb_true_iff. left.
    apply existsb_exists. exists x. split; [exact Hx | apply sameKey_self]. }
  erewrite bind_val by exact E4. cbn [result final emitted].
  split; reflexivity.
Qed.

(** What the cluster holds after an iteration: for every object a
    Deployment of its name, and for every Deployment an object. *)
Lemma legacy_after_pass (D : list Deployment) (V : list VPA) :
  (forall x,
     In x (legacy.afterDeletes D V
             (kube.afterCreates V (map (refOf "Deployment") D) V)) ->
     legacy.hasDeployment D x = true) /\
  (forall d, In d D ->
     hasVPA (legacy.afterDeletes D V
               (kube.afterCreates V (map (refOf "Deployment") D) V))
       (refOf "Deployment" d) = true).
Proof.
  destruct (afterCreates_grows V (map (refOf "Deployment") D) V)
    as (C & EC & HC).
  split.
  - intros x Hx. apply In_legacy_afterDeletes in Hx. destruct Hx as [Hs Hk].
    rewrite EC in Hs. apply in_app_or in Hs. destruct Hs as [Hv|Hc].
    + destruct (legacy.hasDeployment D x) eqn:Hd; [reflexivity|].
      specialize (Hk x Hv Hd). now rewrite sameKey_self in Hk.
    + destruct (HC x Hc) as (w & Hw & -> & _).
      apply in_map_iff in Hw. destruct Hw as (d & <- & Hd).
      now apply hasDeployment_managed.
  - intros d Hd.
    assert (Hex : exists x,
              In x (kube.afterCreates V (map (refOf "Deployment") D) V) /\
              kube.sameKey (GetNamespace d) (GetName d) x = true).
    { destruct (hasVPA V (refOf "Deployment" d)) eqn:Hh.
      - apply hasVPA_spec in Hh. destruct Hh as (v & Hv & E1 & E2).
        exists v. split; [rewrite EC; apply in_or_app; now left|].
        unfold kube.sameKey. simpl in E1, E2.
        now rewrite E1, E2, !String.eqb_refl.
      - apply existsb_exists.
        apply (afterCreates_covers V (map (refOf "Deployment") D) V
                 (refOf "Deployment" d)); [now apply in_map | exact Hh]. }
    destruct Hex as (x & Hx & Hk).
    assert (Kx : vNamespace x = GetNamespace d /\ vName x = GetName d).
    { unfold kube.sameKey in Hk. apply andb_true_iff in Hk.
      destruct Hk as [K1 K2]. apply String.eqb_eq in K1, K2. auto. }
    destruct Kx as [K1 K2].
    apply hasVPA_spec. exists x. split; [|simpl; auto].
    apply In_legacy_afterDeletes. split; [exact Hx|].
    intros v Hv Hdv.
    destruct (kube.sameKey (vNamespace v) (vName v) x) eqn:E; [|reflexivity].
    exfalso. rewrite <- (hasDeployment_sameKey D v x E) in Hdv.
    assert (Ht : legacy.hasDeployment D x = true).
    { unfold legacy.hasDeployment. apply existsb_exists. exists d.
      split; [exact Hd|]. simpl in K1, K2. now rewrite K1, K2, !String.eqb_refl. }
    congruence.
Qed.

(** On a cluster whose VPAs have distinct identities, one iteration of this
    loop reaches the fixed point: it ends without error, and the next
    iteration makes no [Create] and no [Delete] call.  (Both sides match on
    name and namespace here.) *)
Theorem legacy_one_pass_fixed_point (D : list Deployment) (V : list VPA) :
  NoDup (map kube.key V) ->
  result (legacy.pass D V) = Val None /\
  result (legacy.pass D (final (legacy.pass D V))) = Val None /\
  actions (emitted (legacy.pass D (final (legacy.pass D V)))) = [].
Proof.
  intros ND. destruct (@legacy_kube_pass D V ND) as [R1 F1].
  split; [exact R1|]. rewrite F1.
  set (V' := legacy.afterDeletes D V
               (kube.afterCreates V (map (refOf "Deployment") D) V)).
  destruct (legacy_after_pass D V) as [HD HV]. fold V' in HD, HV.
  destruct (@legacy_outcome (list VPA) kube.vpaClient (kube.k8sClient D [] [])
              D V' V') as (dels & rest & EA & EP & HN & HS).
  { simpl. now rewrite kube_list_all. }
  { intros s; reflexivity. }
  fold (legacy.pass D V') in EA, HN, HS.
  assert (E1 : filter (fun w => negb (hasVPA V' w))
                 (map (refOf "Deployment") D) = []).
  { apply filter_nil_iff. intros w Hw. apply in_map_iff in Hw.
    destruct Hw as (d & <- & Hd). now rewrite (HV d Hd). }
  assert (E2 : filter (fun v => negb (legacy.hasDeployment D v)) V' = []).
  { apply filter_nil_iff. intros x Hx. now rewrite (HD x Hx). }
  rewrite E1 in EA. rewrite E2 in EP. simpl in EA, EP.
  symmetry in EP. apply app_eq_nil in EP. destruct EP as [-> ->].
  split; [|exact EA].
  destruct (result (legacy.pass D V')) as [[e|]|] eqn:Ro.
  - exfalso. destruct (HS e eq_refl) as (_ & pre & last & Ed & HF).
    destruct HF as (ns & n & s & -> & _).
    symmetry in Ed. apply app_eq_nil in Ed. destruct Ed as [_ Ed].
    discriminate.
  - reflexivity.
  - exfalso. exact (legacy_iteration_neverPanics _ _ V' Ro).
Qed.

(** The Deployment "api" and the VPA "api" that targets a StatefulSet: this
    loop keeps the VPA, and is at its fixed point at once. *)
Lemma legacy_one_pass_fixed_point_witness :
  result (legacy.pass [apiDeployment] [apiVPA]) = Val None /\
  result (legacy.pass [apiDeployment]
            (final (legacy.pass [apiDeployment] [apiVPA]))) = Val None /\
  actions (emitted (legacy.pass [apiDeployment]
                      (final (legacy.pass [apiDeployment] [apiVPA])))) = [].
Proof.
  refine (@legacy_one_pass_fixed_point [apiDeployment] [apiVPA] _).
  apply NoDup_cons; [simpl; tauto | apply NoDup_nil].
Defined.

(** ** How much a run can do *)

Lemma filter_length_le' {A : Type} (p : A -> bool) (l : list A) :
  length (filter p l) <= length l.
Proof.
  induction l as [|x l IH]; simpl; [lia|]. destruct (p x); simpl; lia.
Qed.

(** A run makes at most one [Create] call per listed workload and at most
    one [Delete] call per listed VPA, whatever the calls answer. *)
Theorem calls_bounded_by_snapshots {St : Type} (vc : versioned_Clientset St)
    (kc : kubernetes_Clientset St) (deployments : list Deployment)
    (statefulSets : list StatefulSet) (daemonSets : list DaemonSet)
    (vpas : list VPA) (s0 : St) :
  fst (VerticalPodAutoscalers_List vc "" s0) = inl vpas ->
  (forall s, fst (Deployments_List kc "" s) = inl deployments) ->
  (forall s, fst (StatefulSets_List kc "" s) = inl statefulSets) ->
  (forall s, fst (DaemonSets_List kc "" s) = inl daemonSets) ->
  length (createCalls (emitted (createVPAs vc kc s0))) <=
    length deployments + length statefulSets + length daemonSets /\
  length (deleteCalls (emitted (createVPAs vc kc s0))) <= length vpas.
Proof.
  intros HV HD HS HM. split.
  - rewrite (@createVPAs_createCalls St vc kc deployments statefulSets
               daemonSets vpas s0 HV HD HS HM).
    rewrite length_map. cbn [toCreate Plan].
    etransitivity; [apply filter_length_le'|].
    unfold workloads. rewrite !length_app, !length_map. lia.
  - destruct (@createVPAs_outcome St vc kc deployments statefulSets
                daemonSets vpas s0 HV HD HS HM)
      as (dels & rest & EA & EP & _ & _).
    rewrite <- deleteCalls_actions, EA, deleteCalls_app.
    rewrite deleteCalls_createActions. simpl.
    assert (L : length (map deleteAction
                          (toDelete (Plan (workloads deployments statefulSets
                                             daemonSets) vpas)))
                = length (deleteCalls dels) + length (deleteCalls rest)).
    { rewrite <- length_app, <- deleteCalls_app, <- EP.
      now rewrite deleteCalls_deleteActions, !length_map. }
    rewrite length_map in L. cbn [toDelete Plan] in L.
    pose proof (filter_length_le'
                  (fun v => negb (hasWorkload (workloads deployments
                                                 statefulSets daemonSets) v)
                            && negb (exempt v)) vpas).
    lia.
Qed.

(** Two workloads called "api" and no VPA: two creates, and the second is
    refused by the cluster; no more than two. *)
Lemma calls_bounded_by_snapshots_witness :
  length (createCalls
            (emitted (kube.pass [apiDeployment] [apiStatefulSet] [] []))) <= 2 /\
  length (deleteCalls
            (emitted (kube.pass [apiDeployment] [apiStatefulSet] [] []))) <= 0.
Proof.
  refine (@calls_bounded_by_snapshots (list VPA) kube.vpaClient
            (kube.k8sClient [apiDeployment] [apiStatefulSet] [])
            [apiDeployment] [apiStatefulSet] [] [] [] _ _ _ _).
  - reflexivity.
  - intros s; reflexivity.
  - intros s; reflexivity.
  - intros s; reflexivity.
Defined.

(** * The answers to the [Delete] calls *)

(** ** A journal beside the state changes nothing *)

Lemma simulates_ret {St A : Type} (a : A) :
  simulates (St := St) (ret a) (ret a).
Proof. intros s j. repeat split. Qed.

Lemma simulates_eval {St A : Type} (r : res A) :
  simulates (St := St) (eval r) (eval r).
Proof. intros s j. repeat split. Qed.

Lemma simulates_slog {St : Type} (lvl : Level) (msg : string)
    (attrs : list (string * string)) :
  simulates (St := St) (slog lvl msg attrs) (slog lvl msg attrs).
Proof. intros s j. repeat split. Qed.

Lemma simulates_sleep {St : Type} (n : nat) :
  simulates (St := St) (time_Sleep n) (time_Sleep n).
Proof. intros s j. repeat split. Qed.

Lemma simulates_call {St A : Type} (g : St -> A * St)
    (g' : St * Journal -> A * (St * Journal)) (evs : list event) :
  (forall s j, fst (g' (s, j)) = fst (g s) /\
               fst (snd (g' (s, j))) = snd (g s)) ->
  simulates (call g evs) (call g' evs).
Proof.
  intros H s j. destruct (H s j) as [H1 H2]. unfold call.
  cbn [result final emitted]. rewrite H1. repeat split. exact H2.
Qed.

Lemma simulates_bind {St A B : Type} (m : Go St A) (m' : Go (St * Journal) A)
    (f : A -> Go St B) (f' : A -> Go (St * Journal) B) :
  simulates m m' -> (forall a, simulates (f a) (f' a)) ->
  simulates (bind m f) (bind m' f').
Proof.
  intros Hm Hf s j. destruct (Hm s j) as (R & E & F). unfold bind.
  rewrite R, E. destruct (result (m s)) as [a|]; cbn [result final emitted].
  - destruct (final (m' (s, j))) as [s' j'] eqn:Ef. cbn [fst] in F.
    subst s'. destruct (Hf a (final (m s)) j') as (R' & E' & F').
    rewrite R', E'. repeat split. exact F'.
  - repeat split. exact F.
Qed.

Lemma simulates_range {St A : Type} (b : A -> Go St unit)
    (b' : A -> Go (St * Journal) unit) (l : list A) :
  (forall x, simulates (b x) (b' x)) -> simulates (range l b) (range l b').
Proof.
  intros Hb. induction l as [|x l IH]; cbn [range].
  - apply simulates_ret.
  - apply simulates_bind; [apply Hb | intros _; exact IH].
Qed.

Lemma simulates_rangeReturning {St A : Type}
    (b : A -> Go St (option error))
    (b' : A -> Go (St * Journal) (option error)) (l : list A) :
  (forall x, simulates (b x) (b' x)) ->
  simulates (rangeReturning l b) (rangeReturning l b').
Proof.
  intros Hb. induction l as [|x l IH]; cbn [rangeReturning].
  - apply simulates_ret.
  - apply simulates_bind; [apply Hb | intros [e|]];
      [apply simulates_ret | exact IH].
Qed.

Ltac sim_step :=
  first
    [ apply simulates_slog
    | apply simulates_sleep
    | apply simulates_ret
    | apply simulates_eval
    | apply simulates_call; intros ? ?; split; reflexivity
    | apply simulates_range; intros ?
    | apply simulates_rangeReturning; intros ?
    | apply simulates_bind; [|intros ?]
    | match goal with
      | |- simulates (match ?x with _ => _ end) _ => destruct x
      end ].

Lemma createVPA_simulates {St T : Type} `{vpaTarget T} (target : T)
    (api k : string) (V : list VPA) (vc : versioned_Clientset St) :
  simulates (createVPA target api k V vc)
            (createVPA target api k V (recording vc)).
Proof. unfold createVPA. repeat sim_step. Qed.

Lemma createVPAs_simulates {St : Type} (vc : versioned_Clientset St)
    (kc : kubernetes_Clientset St) :
  simulates (createVPAs vc kc) (createVPAs (recording vc) (beside kc)).
Proof.
  unfold createVPAs.
  repeat first [apply createVPA_simulates | sim_step].
Qed.

Lemma legacy_iteration_simulates {St : Type} (vc : versioned_Clientset St)
    (kc : kubernetes_Clientset St) :
  simulates (legacy.iteration vc kc)
            (legacy.iteration (recording vc) (beside kc)).
Proof. unfold legacy.iteration. repeat sim_step. Qed.

(** ** Statements that leave the journal alone *)

Lemma quiet_ret {St A : Type} (a : A) : quiet (St := St) (ret a).
Proof. intros sj. split; reflexivity. Qed.

Lemma quiet_eval {St A : Type} (r : res A) : quiet (St := St) (eval r).
Proof. intros sj. split; reflexivity. Qed.

Lemma quiet_slog {St : Type} (lvl : Level) (msg : string)
    (attrs : list (string * string)) :
  quiet (St := St) (slog lvl msg attrs).
Proof. intros sj. split; reflexivity. Qed.

Lemma quiet_sleep {St : Type} (n : nat) : quiet (St := St) (time_Sleep n).
Proof. intros sj. split; reflexivity. Qed.

Lemma quiet_call {St A : Type} (g : St * Journal -> A * (St * Journal))
    (evs : list event) :
  (forall sj, snd (snd (g sj)) = snd sj) -> deleteCalls evs = [] ->
  quiet (call g evs).
Proof. intros H E sj. split; [apply H | exact E]. Qed.

Lemma quiet_bind {St A B : Type} (m : Go (St * Journal) A)
    (f : A -> Go (St * Journal) B) :
  quiet m -> (forall a, quiet (f a)) -> quiet (bind m f).
Proof.
  intros Hm Hf sj. destruct (Hm sj) as [F E]. unfold bind.
  destruct (result (m sj)) as [a|]; cbn [result final emitted].
  - destruct (Hf a (final (m sj))) as [F' E'].
    rewrite F', F, deleteCalls_app, E, E'. auto.
  - auto.
Qed.

Lemma quiet_range {St A : Type} (b : A -> Go (St * Journal) unit)
    (l : list A) :
  (forall x, quiet (b x)) -> quiet (range l b).
Proof.
  intros Hb. induction l as [|x l IH]; cbn [range].
  - apply quiet_ret.
  - apply quiet_bind; [apply Hb | intros _; exact IH].
Qed.

Ltac quiet_step :=
  first
    [ apply quiet_slog
    | apply quiet_sleep
    | apply quiet_ret
    | apply quiet_eval
    | apply quiet_call; [intros ?; reflexivity | reflexivity]
    | apply quiet_range; intros ?
    | apply quiet_bind; [|intros ?]
    | match goal with
      | |- quiet (match ?x with _ => _ end) => destruct x
      end ].

Lemma createVPA_quiet {St T : Type} `{vpaTarget T} (target : T)
    (api k : string) (V : list VPA) (vc : versioned_Clientset St) :
  quiet (createVPA target api k V (recording vc)).
Proof. unfold createVPA. repeat quiet_step. Qed.

(** ** What the journal holds after a run *)

Lemma journaled_ret_None {St : Type} (sj : St * Journal) :
  journaled (ret None sj) (snd sj).
Proof.
  exists []. cbn [ret result final emitted lastAnswer deleteCalls map].
  rewrite app_nil_r. auto.
Qed.

(** A statement that leaves the journal alone, then one that writes it. *)
Lemma journaled_after_quiet {St A : Type} (m : Go (St * Journal) A)
    (f : A -> Go (St * Journal) (option error)) (sj : St * Journal) :
  quiet m ->
  (forall a, result (m sj) = Val a ->
     journaled (f a (final (m sj))) (snd (final (m sj)))) ->
  journaled (bind m f sj) (snd sj).
Proof.
  intros Hm Hf. destruct (Hm sj) as [F E]. unfold bind.
  destruct (result (m sj)) as [a|]; cbn [result final emitted].
  - destruct (Hf a eq_refl) as (jl & F' & M & L).
    exists jl. cbn [result final emitted].
    rewrite F', F, deleteCalls_app, E. auto.
  - exists []. cbn [result final emitted].
    rewrite F, E, app_nil_r. cbn [map lastAnswer]. auto.
Qed.

(** A statement that writes the journal, then one that hands on what the
    first answered and leaves the journal alone. *)
Lemma journaled_bind_tail {St : Type} (m : Go (St * Journal) (option error))
    (k : option error -> Go (St * Journal) (option error))
    (sj : St * Journal) (j : Journal) :
  journaled (m sj) j ->
  (forall r s, result (k r s) = Val r /\ snd (final (k r s)) = snd s /\
               deleteCalls (emitted (k r s)) = []) ->
  journaled (bind m k sj) j.
Proof.
  intros (jl & F & M & L) Hk. unfold bind.
  destruct (result (m sj)) as [r|]; cbn [result final emitted].
  - destruct (Hk r (final (m sj))) as (R' & F' & E').
    exists jl. cbn [result final emitted].
    rewrite R', F', F, deleteCalls_app, E', app_nil_r. auto.
  - exists jl. auto.
Qed.

Lemma lastAnswer_app (r : res (option error)) (jl1 jl2 : Journal) :
  Forall answeredNone jl1 -> lastAnswer r jl2 -> lastAnswer r (jl1 ++ jl2).
Proof.
  intros H1. destruct r as [[e|]|]; cbn [lastAnswer].
  - intros (pre & k & -> & Hp). exists (jl1 ++ pre), k.
    rewrite app_assoc. split; [reflexivity|]. apply Forall_app. auto.
  - intros H2. apply Forall_app. auto.
  - intros H2. apply Forall_app. auto.
Qed.

(** A loop that stops at the first error notes that error last. *)
Lemma rangeReturning_journaled {St A : Type}
    (body : A -> Go (St * Journal) (option error)) (items : list A) :
  (forall x sj, In x items -> journaled (body x sj) (snd sj)) ->
  forall sj, journaled (rangeReturning items body sj) (snd sj).
Proof.
  induction items as [|x t IH]; intros Hb sj.
  - apply journaled_ret_None.
  - assert (Ht : forall y sj', In y t -> journaled (body y sj') (snd sj'))
      by (intros y sj' Hy; exact (Hb y sj' (or_intror Hy))).
    specialize (IH Ht). clear Ht.
    destruct (Hb x sj (or_introl eq_refl)) as (jl1 & F1 & M1 & L1).
    cbn [rangeReturning]. unfold bind.
    destruct (result (body x sj)) as [[e|]|] eqn:R1;
      cbn [ret result final emitted].
    + exists jl1. cbn [result final emitted]. rewrite app_nil_r. auto.
    + destruct (IH (final (body x sj))) as (jl2 & F2 & M2 & L2).
      exists (jl1 ++ jl2). cbn [result final emitted].
      rewrite F2, F1, <- app_assoc, map_app, deleteCalls_app, M1, M2.
      split; [reflexivity|]. split; [reflexivity|].
      apply lastAnswer_app; assumption.
    + exists jl1. auto.
Qed.

(** Steps over a statement that leaves the journal alone. *)
Ltac over_quiet :=
  apply journaled_after_quiet;
  [repeat first [apply createVPA_quiet | quiet_step]|];
  let a := fresh "a" in let Ra := fresh "Ra" in
  intros a Ra; cbn in Ra.

(** The same over a listing that answers as [H] says. *)
Ltac over_listing H :=
  over_quiet;
  match goal with
  | Ra : Val _ = Val _ |- _ => rewrite H in Ra; injection Ra as <-
  end;
  cbv beta iota.

Section Journal.
Context {St : Type} (vc : versioned_Clientset St)
  (kc : kubernetes_Clientset St).
Variables (deployments : list Deployment) (statefulSets : list StatefulSet)
  (daemonSets : list DaemonSet) (vpas : list VPA) (s0 : St).

Hypothesis listVPAs :
  fst (VerticalPodAutoscalers_List vc "" s0) = inl vpas.
Hypothesis listDeployments :
  forall s, fst (Deployments_List kc "" s) = inl deployments.
Hypothesis listStatefulSets :
  forall s, fst (StatefulSets_List kc "" s) = inl statefulSets.
Hypothesis listDaemonSets :
  forall s, fst (DaemonSets_List kc "" s) = inl daemonSets.

Lemma createVPAs_journaled (j : Journal) :
  journaled (createVPAs (recording vc) (beside kc) (s0, j)) j.
Proof.
  change (journaled (createVPAs (recording vc) (beside kc) (s0, j))
            (snd (s0, j))).
  unfold createVPAs.
  over_quiet. clear a Ra. over_listing listVPAs.
  over_listing listDeployments. over_quiet. clear a Ra.
  over_listing listStatefulSets. over_quiet. clear a Ra.
  over_listing listDaemonSets. over_quiet. clear a Ra.
  apply journaled_bind_tail.
  - apply rangeReturning_journaled. intros v sj _.
    over_quiet. clear Ra. destruct a; [apply journaled_ret_None|].
    over_quiet. clear Ra. destruct a; [apply journaled_ret_None|].
    over_quiet. clear Ra. destruct a; [apply journaled_ret_None|].
    destruct (strings_HasPrefix (vName v) "goldilocks");
      [apply journaled_ret_None|].
    match goal with |- journaled (_ ?st) _ => generalize st end.
    intros st. unfold journaled, bind, call, eval, slog, ret.
    cbn [result final emitted recording VerticalPodAutoscalers_Delete
         fst snd].
    match goal with
    | |- context [match ?x with Some _ => _ | None => _ end] =>
        destruct x as [e|]
    end.
    + exists [((vNamespace v, vName v), Some e)].
      cbn [result final emitted snd map fst deleteCalls app lastAnswer].
      repeat split. exists [], (vNamespace v, vName v).
      split; [reflexivity | apply Forall_nil].
    + exists [((vNamespace v, vName v), @None error)].
      destruct (TargetRef (Spec v)) as [t|];
        cbn [deref result final emitted snd map fst deleteCalls app
             lastAnswer];
        repeat split; apply Forall_cons; (reflexivity || apply Forall_nil).
  - intros [e|] s; repeat split.
Qed.

Lemma lastAnswer_failed (r : res (option error)) (jl : Journal)
    (k : string * string) (e : error) :
  lastAnswer r jl -> In (k, Some e) jl ->
  r = Val (Some e) /\
  exists pre, jl = pre ++ [(k, Some e)] /\ Forall answeredNone pre.
Proof.
  assert (HN : forall l, Forall answeredNone l -> ~ In (k, Some e) l).
  { intros l Hl Hin. rewrite Forall_forall in Hl.
    specialize (Hl _ Hin). discriminate Hl. }
  destruct r as [[e'|]|]; cbn [lastAnswer].
  - intros (pre & k' & -> & Hp) Hin. apply in_app_or in Hin.
    destruct Hin as [Hin|[Hin|[]]]; [exfalso; exact (HN _ Hp Hin)|].
    inversion Hin; subst. split; [reflexivity|]. exists pre. auto.
  - intros Hl Hin. exfalso. exact (HN _ Hl Hin).
  - intros Hl Hin. exfalso. exact (HN _ Hl Hin).
Qed.

(** What the cluster answered to the [Delete] calls of a run, read off a
    journal that does not change the run: the journal has one entry for
    each [Delete] call of the trace, in order; a call that the cluster
    refused is the last call of the run, and the run returns the error the
    cluster gave; and an error that a run returns after its listings is
    the answer to its last [Delete] call, every call before it having
    succeeded. *)
Theorem returned_error_is_the_failed_delete :
  (result (createVPAs (recording vc) (beside kc) (s0, [])) =
     result (createVPAs vc kc s0) /\
   emitted (createVPAs (recording vc) (beside kc) (s0, [])) =
     emitted (createVPAs vc kc s0) /\
   fst (final (createVPAs (recording vc) (beside kc) (s0, []))) =
     final (createVPAs vc kc s0)) /\
  map fst (deleteJournal vc kc s0) =
    deleteCalls (emitted (createVPAs vc kc s0)) /\
  (forall k e, In (k, Some e) (deleteJournal vc kc s0) ->
     result (createVPAs vc kc s0) = Val (Some e) /\
     exists pre, deleteJournal vc kc s0 = pre ++ [(k, Some e)] /\
                 Forall answeredNone pre) /\
  (forall e, result (createVPAs vc kc s0) = Val (Some e) ->
     exists pre k, deleteJournal vc kc s0 = pre ++ [(k, Some e)] /\
                   Forall answeredNone pre).
Proof.
  destruct (createVPAs_simulates vc kc s0 []) as (R & E & F).
  destruct (createVPAs_journaled []) as (jl & Fj & M & L).
  cbn [app] in Fj. subst jl.
  rewrite R in L. rewrite E in M.
  split; [auto|]. split; [exact M|]. split.
  - intros k e Hin. exact (@lastAnswer_failed _ _ k e L Hin).
  - intros e He. rewrite He in L. exact L.
Qed.
End Journal.

(** "old1" is deleted, then the cluster refuses to delete "old2": the run
    returns that error. *)
Lemma returned_error_is_the_failed_delete_witness :
  exists pre k,
    deleteJournal refusingOld2 (fake.k8sClient [webDeployment] [] []) tt
      = pre ++ [(k, Some "forbidden")] /\
    Forall answeredNone pre.
Proof.
  refine (proj2 (proj2 (proj2 (@returned_error_is_the_failed_delete unit
            refusingOld2 (fake.k8sClient [webDeployment] [] [])
            [webDeployment] [] [] [old1VPA; old2VPA] tt _ _ _ _)))
            "forbidden" _).
  - reflexivity.
  - intros s; reflexivity.
  - intros s; reflexivity.
  - intros s; reflexivity.
  - reflexivity.
Defined.

Section LegacyJournal.
Context {St : Type} (vc : versioned_Clientset St)
  (kc : kubernetes_Clientset St).
Variables (deployments : list Deployment) (vpas : list VPA) (s0 : St).

Hypothesis listVPAs :
  fst (VerticalPodAutoscalers_List vc "" s0) = inl vpas.
Hypothesis listDeployments :
  forall s, fst (Deployments_List kc "" s) = inl deployments.

Lemma legacy_iteration_journaled (j : Journal) :
  journaled (legacy.iteration (recording vc) (beside kc) (s0, j)) j.
Proof.
  change (journaled (legacy.iteration (recording vc) (beside kc) (s0, j))
            (snd (s0, j))).
  unfold legacy.iteration.
  over_quiet. clear a Ra. over_listing listVPAs.
  over_listing listDeployments. over_quiet. clear a Ra.
  apply journaled_bind_tail.
  - apply rangeReturning_journaled. intros v sj _.
    over_quiet. clear Ra. destruct a; [apply journaled_ret_None|].
    match goal with |- journaled (_ ?st) _ => generalize st end.
    intros st. unfold journaled, bind, call, eval, slog, ret.
    cbn [result final emitted recording VerticalPodAutoscalers_Delete
         fst snd].
    match goal with
    | |- context [match ?x with Some _ => _ | None => _ end] =>
        destruct x as [e|]
    end.
    + exists [((vNamespace v, vName v), Some e)].
      cbn [result final emitted snd map fst deleteCalls app lastAnswer].
      repeat split. exists [], (vNamespace v, vName v).
      split; [reflexivity | apply Forall_nil].
    + exists [((vNamespace v, vName v), @None error)].
      cbn [result final emitted snd map fst deleteCalls app lastAnswer].
      repeat split. apply Forall_cons; [reflexivity | apply Forall_nil].
  - intros [e|] s; repeat split.
Qed.

(** In this loop a failed [Delete] call ends the process.  Read off a
    journal that does not change the iteration, with one entry for each
    [Delete] call of the trace, in order: a call that the cluster refused
    is the last call, the iteration ends with the error the cluster gave
    and without pause, and the loop makes no further turn; and an
    iteration ends that way only with the answer to its last [Delete]
    call, every call before it having succeeded. *)
Theorem legacy_failed_delete_is_fatal :
  (result (legacy.iteration (recording vc) (beside kc) (s0, [])) =
     result (legacy.iteration vc kc s0) /\
   emitted (legacy.iteration (recording vc) (beside kc) (s0, [])) =
     emitted (legacy.iteration vc kc s0) /\
   fst (final (legacy.iteration (recording vc) (beside kc) (s0, []))) =
     final (legacy.iteration vc kc s0)) /\
  map fst (legacyDeleteJournal vc kc s0) =
    deleteCalls (emitted (legacy.iteration vc kc s0)) /\
  (forall k e, In (k, Some e) (legacyDeleteJournal vc kc s0) ->
     (exists pre, legacyDeleteJournal vc kc s0 = pre ++ [(k, Some e)] /\
                  Forall answeredNone pre) /\
     result (legacy.iteration vc kc s0) = Val (Some e) /\
     sleeps (emitted (legacy.iteration vc kc s0)) = [] /\
     forall n,
       legacy.main (S n) vc kc s0 =
         mkOut (Val (Some e)) (final (legacy.iteration vc kc s0))
           (emitted (legacy.iteration vc kc s0))) /\
  (forall e, result (legacy.iteration vc kc s0) = Val (Some e) ->
     exists pre k, legacyDeleteJournal vc kc s0 = pre ++ [(k, Some e)] /\
                   Forall answeredNone pre).
Proof.
  destruct (legacy_iteration_simulates vc kc s0 []) as (R & E & F).
  destruct (legacy_iteration_journaled []) as (jl & Fj & M & L).
  cbn [app] in Fj. subst jl.
  rewrite R in L. rewrite E in M.
  split; [auto|]. split; [exact M|]. split.
  - intros k e Hin. destruct (@lastAnswer_failed _ _ k e L Hin) as [He Hp].
    split; [exact Hp|]. split; [exact He|].
    destruct (@legacy_outcome St vc kc deployments vpas s0 listVPAs
                listDeployments) as (dels & rest & _ & _ & _ & HS).
    split; [exact (proj1 (HS e He))|].
    intros n. cbn [legacy.main]. unfold bind. rewrite He.
    cbn [ret result final emitted]. now rewrite app_nil_r.
  - intros e He. rewrite He in L. exact L.
Qed.
End LegacyJournal.

(** "old1" is deleted, then the cluster refuses to delete "old2": no
    pause, and three turns of the loop end where the first ends. *)
Lemma legacy_failed_delete_is_fatal_witness :
  sleeps (emitted (legacy.iteration refusingOld2
                     (fake.k8sClient [webDeployment] [] []) tt)) = [] /\
  legacy.main 3 refusingOld2 (fake.k8sClient [webDeployment] [] []) tt =
    mkOut (Val (Some "forbidden")) tt
      (emitted (legacy.iteration refusingOld2
                  (fake.k8sClient [webDeployment] [] []) tt)).
Proof.
  destruct (proj1 (proj2 (proj2 (@legacy_failed_delete_is_fatal unit
              refusingOld2 (fake.k8sClient [webDeployment] [] [])
              [webDeployment] [old1VPA; old2VPA] tt
              eq_refl (fun _ => eq_refl))))
              ("default", "old2") "forbidden") as (_ & _ & H1 & H2).
  - vm_compute. auto.
  - split; [exact H1 | exact (H2 2)].
Defined.
